(** * Mod-Manager: the self-update subsystem, embedded and verified

    A shallow embedding of the update-related code of the Mod-Manager
    repository:
    - [modmanager.py]: [semver_normalize], [is_version_newer],
      [fetch_latest_release_info], [download_url_to_path],
      [_check_updates_and_update_ui], [toggle_selected_mod];
    - [update.py]: [download_file], [unzip_and_merge], [run];
    - [old_updater/1.1/update.py]: [unzip_to], [atomic_replace],
      the staging step of [task_update_exe] and the script generated by
      [_schedule_replace_and_exit];
    - [old_updater/1.2/update.py]: the download steps of [start_update].

    Python [str] values are modelled as [string] (one [ascii] per
    character: the model covers ASCII text), [None] as [option]'s [None],
    dictionaries as [gmap], exceptions as the [Raised] outcome of a small
    state-and-exception monad. *)

From Stdlib Require Import NArith ZArith Ascii String Lia Sorted.
From stdpp Require Import gmap strings list fin_maps.

Open Scope N_scope.
Open Scope nat_scope.

(** ** Python strings *)

Module PyStr.

(** [str.isspace] on one ASCII character: TAB, LF, VT, FF, CR, the four
    separators FS, GS, RS, US and the space. *)
Definition isspace (c : ascii) : bool :=
  let n := nat_of_ascii c in
  ((9 <=? n) && (n <=? 13)) || ((28 <=? n) && (n <=? 31)) || (n =? 32).

Fixpoint lstrip (s : string) : string :=
  match s with
  | EmptyString => EmptyString
  | String c s' => if isspace c then lstrip s' else s
  end.

Fixpoint rstrip (s : string) : string :=
  match s with
  | EmptyString => EmptyString
  | String c s' =>
      match rstrip s' with
      | EmptyString => if isspace c then EmptyString else String c EmptyString
      | r => String c r
      end
  end.

(** [s.strip()] *)
Definition strip (s : string) : string := rstrip (lstrip s).

(** Whitespace only; no whitespace at the start; none at the end. *)
Fixpoint all_space (s : string) : bool :=
  match s with
  | EmptyString => true
  | String c s' => isspace c && all_space s'
  end.

Definition starts_clean (s : string) : bool :=
  match s with
  | EmptyString => true
  | String c _ => negb (isspace c)
  end.

Fixpoint ends_clean (s : string) : bool :=
  match s with
  | EmptyString => true
  | String c EmptyString => negb (isspace c)
  | String _ s' => ends_clean s'
  end.

(** [s.startswith(p)] *)
Fixpoint startswith (p s : string) : bool :=
  match p, s with
  | EmptyString, _ => true
  | String _ _, EmptyString => false
  | String a p', String b s' => if decide (a = b) then startswith p' s' else false
  end.

(** [s.endswith(p)]: [p] is [s] or ends what follows its first
    character. *)
Fixpoint endswith (p s : string) : bool :=
  bool_decide (s = p) ||
  match s with
  | EmptyString => false
  | String _ s' => endswith p s'
  end.

(** [s[n:]] *)
Fixpoint drop (n : nat) (s : string) : string :=
  match n, s with
  | O, _ => s
  | S _, EmptyString => EmptyString
  | S n', String _ s' => drop n' s'
  end.

(** [s.split(sep)] for a one-character separator: never the empty list. *)
Fixpoint split (sep : ascii) (s : string) : list string :=
  match s with
  | EmptyString => [EmptyString]
  | String c s' =>
      if decide (c = sep) then EmptyString :: split sep s'
      else match split sep s' with
           | h :: t => String c h :: t
           | [] => [String c EmptyString]
           end
  end.

Definition is_digit_char (c : ascii) : bool :=
  let n := nat_of_ascii c in (48 <=? n) && (n <=? 57).

Fixpoint all_digits (s : string) : bool :=
  match s with
  | EmptyString => true
  | String c s' => is_digit_char c && all_digits s'
  end.

(** [s.isdecimal()]: at least one character, all of them the digits
    0 to 9. *)
Definition isdecimal (s : string) : bool :=
  match s with
  | EmptyString => false
  | _ => all_digits s
  end.

(** The characters [str.isdigit] accepts, read as Latin-1: the digits 0
    to 9 and the superscripts two, three and one. *)
Definition is_py_digit_char (c : ascii) : bool :=
  let n := nat_of_ascii c in
  is_digit_char c || (n =? 178) || (n =? 179) || (n =? 185).

Fixpoint all_py_digits (s : string) : bool :=
  match s with
  | EmptyString => true
  | String c s' => is_py_digit_char c && all_py_digits s'
  end.

(** [s.isdigit()] *)
Definition isdigit (s : string) : bool :=
  match s with
  | EmptyString => false
  | _ => all_py_digits s
  end.

Fixpoint int_acc (acc : N) (s : string) : N :=
  match s with
  | EmptyString => acc
  | String c s' => int_acc (10 * acc + N.of_nat (nat_of_ascii c - 48))%N s'
  end.

(** The value of a string of digits. *)
Definition int (s : string) : N := int_acc 0%N s.

(** [sys.get_int_max_str_digits()], the default of CPython 3.11. *)
Definition int_max_str_digits : nat := 4300.

(** [int(s)] for a string that passed [isdigit]: a [ValueError], here
    [None], when a character is a superscript or when it has more
    digits than the interpreter converts. *)
Definition int_of_digits (s : string) : option N :=
  if all_digits s && (String.length s <=? int_max_str_digits)
  then Some (int s) else None.

(** The characters [int] skips around a literal, the string read as
    Latin-1: TAB, LF, VT, FF, CR, the space, NEL and the no-break
    space. *)
Definition is_int_space (c : ascii) : bool :=
  let n := nat_of_ascii c in
  ((9 <=? n) && (n <=? 13)) || (n =? 32) || (n =? 133) || (n =? 160).

Fixpoint lstrip_int (s : string) : string :=
  match s with
  | EmptyString => EmptyString
  | String c s' => if is_int_space c then lstrip_int s' else s
  end.

Fixpoint rstrip_int (s : string) : string :=
  match s with
  | EmptyString => EmptyString
  | String c s' =>
      match rstrip_int s' with
      | EmptyString => if is_int_space c then EmptyString else String c EmptyString
      | r => String c r
      end
  end.

(** The digits of a decimal literal: groups of digits separated by
    single underscores; [None] when the text is no literal. *)
Fixpoint literal_digits (after_digit : bool) (s : string) : option string :=
  match s with
  | EmptyString => if after_digit then Some EmptyString else None
  | String c s' =>
      if is_digit_char c then String c <$> literal_digits true s'
      else if bool_decide (c = "_"%char) && after_digit then
        match s' with
        | EmptyString => None
        | _ => literal_digits false s'
        end
      else None
  end.

(** [int(s)] on a [str]: whitespace around, an optional sign, a decimal
    literal of at most [int_max_str_digits] digits; [None] is the
    [ValueError]. *)
Definition py_int (s : string) : option Z :=
  let t := rstrip_int (lstrip_int s) in
  let signed :=
    match t with
    | String c r =>
        if bool_decide (c = "-"%char) then (true, r)
        else if bool_decide (c = "+"%char) then (false, r)
        else (false, t)
    | EmptyString => (false, t)
    end in
  match literal_digits false signed.2 with
  | Some d =>
      if String.length d <=? int_max_str_digits
      then Some (if signed.1 then (- Z.of_N (int d))%Z else Z.of_N (int d))
      else None
  | None => None
  end.

(** [s * n] *)
Fixpoint mul (s : string) (n : nat) : string :=
  match n with
  | O => EmptyString
  | S n' => s +:+ mul s n'
  end.

Definition lower_char (c : ascii) : ascii :=
  let n := nat_of_ascii c in
  if (65 <=? n) && (n <=? 90) then ascii_of_nat (n + 32) else c.

(** [s.lower()] *)
Fixpoint lower (s : string) : string :=
  match s with
  | EmptyString => EmptyString
  | String c s' => String (lower_char c) (lower s')
  end.

Definition dec_count (count : option nat) : option nat :=
  match count with
  | Some n => Some (Nat.pred n)
  | None => None
  end.

Definition count_left (count : option nat) : bool :=
  match count with
  | Some O => false
  | _ => true
  end.

(** The left-to-right scan of [s.replace(old, new, count)] for a
    non-empty [old]; [skip] counts the characters of a matched
    occurrence still to be dropped, [count = None] replaces every
    occurrence. *)
Fixpoint replace_go (old new : string) (skip : nat) (count : option nat)
    (s : string) : string :=
  match s with
  | EmptyString => EmptyString
  | String c s' =>
      match skip with
      | S k => replace_go old new k count s'
      | O =>
          if count_left count && startswith old s
          then new +:+ replace_go old new (Nat.pred (String.length old)) (dec_count count) s'
          else String c (replace_go old new O count s')
      end
  end.

(** With an empty [old] Python inserts [new] before every character and
    at the end, at most [count] times. *)
Fixpoint interleave (new : string) (count : option nat) (s : string) : string :=
  if count_left count then
    match s with
    | EmptyString => new
    | String c s' => new +:+ String c (interleave new (dec_count count) s')
    end
  else s.

Definition replace (old new : string) (count : option nat) (s : string) : string :=
  match old with
  | EmptyString => interleave new count s
  | _ => replace_go old new O count s
  end.

(** [p in s]: [p] starts [s] or occurs in what follows its first
    character. *)
Fixpoint contains (p s : string) : bool :=
  startswith p s ||
  match s with
  | EmptyString => false
  | String _ s' => contains p s'
  end.

End PyStr.

(** ** Exceptions and state *)

(** The exception classes the modelled code can meet. The last two
    derive from [BaseException] only: [except Exception] lets them
    pass. *)
Inductive exn : Type :=
  | FileNotFoundError | PermissionError | FileExistsError | IsADirectoryError
  | OSError | URLError | HTTPError (code : nat) | TimeoutError
  | JSONDecodeError | AttributeError | TypeError | ValueError
  | BadZipFile | ZeroDivisionError | CallbackError
  | KeyboardInterrupt | SystemExit.

(** [isinstance(e, Exception)] *)
Definition is_exception (e : exn) : bool :=
  match e with
  | KeyboardInterrupt | SystemExit => false
  | _ => true
  end.

Inductive outcome (A : Type) : Type :=
  | Returned (a : A)
  | Raised (e : exn).
Arguments Returned {A} a.
Arguments Raised {A} e.

(** A computation over a state [S] that returns or raises; as in Python,
    the effects made before an exception stay. *)
Definition M (S A : Type) : Type := S -> outcome A * S.

Definition ret {S A} (a : A) : M S A := fun s => (Returned a, s).

Definition raise {S A} (e : exn) : M S A := fun s => (Raised e, s).

Definition bind {S A B} (m : M S A) (k : A -> M S B) : M S B :=
  fun s => match m s with
           | (Returned a, s') => k a s'
           | (Raised e, s') => (Raised e, s')
           end.

(** [try: m except Exception as e: h e] *)
Definition try_except {S A} (m : M S A) (h : exn -> M S A) : M S A :=
  fun s => match m s with
           | (Returned a, s') => (Returned a, s')
           | (Raised e, s') => if is_exception e then h e s' else (Raised e, s')
           end.

(** [try: m finally: f] *)
Definition try_finally {S A} (m : M S A) (f : M S unit) : M S A :=
  fun s => match m s with
           | (Returned a, s') =>
               match f s' with
               | (Returned _, s'') => (Returned a, s'')
               | (Raised e, s'') => (Raised e, s'')
               end
           | (Raised e, s') =>
               match f s' with
               | (Returned _, s'') => (Raised e, s'')
               | (Raised e', s'') => (Raised e', s'')
               end
           end.

Definition get {S} : M S S := fun s => (Returned s, s).
Definition put {S} (s : S) : M S unit := fun _ => (Returned tt, s).
Definition modify {S} (f : S -> S) : M S unit := fun s => (Returned tt, f s).

(** [if b: m] *)
Definition when_ {S} (b : bool) (m : M S unit) : M S unit :=
  if b then m else ret tt.

(** Lift an outcome computed without touching the state. *)
Definition lift {S A} (o : outcome A) : M S A := fun s => (o, s).

#[global] Instance M_ret {S} : MRet (M S) := fun A a => ret a.
#[global] Instance M_bind {S} : MBind (M S) := fun A B k m => bind m k.

(** Unfold the monad down to functions on states. *)
Ltac munfold :=
  unfold mbind, M_bind, bind, mret, M_ret, ret, raise, modify, lift,
         try_except, get, when_ in *.

(** ** Paths ([posixpath]: [os.sep] is the slash) *)

Module Path.

Definition sep : ascii := "/"%char.

Definition sep_str : string := String sep EmptyString.

Fixpoint all_sep (s : string) : bool :=
  match s with
  | EmptyString => true
  | String c s' => if decide (c = sep) then all_sep s' else false
  end.

(** [s.rstrip(sep)] *)
Fixpoint rstrip_sep (s : string) : string :=
  match s with
  | EmptyString => EmptyString
  | String c s' =>
      match rstrip_sep s' with
      | EmptyString => if decide (c = sep) then EmptyString else String c EmptyString
      | r => String c r
      end
  end.

(** [p[:p.rfind(sep) + 1]] *)
Definition head_raw (p : string) : string :=
  foldr (fun x acc => x +:+ sep_str +:+ acc) EmptyString
        (removelast (PyStr.split sep p)).

(** [os.path.dirname(p)] *)
Definition dirname (p : string) : string :=
  let head := head_raw p in
  if all_sep head then head else rstrip_sep head.

(** [os.path.basename(p)] *)
Definition basename (p : string) : string :=
  List.last (PyStr.split sep p) EmptyString.

(** [os.path.join(a, b)] *)
Definition join (a b : string) : string :=
  if PyStr.startswith sep_str b then b
  else if bool_decide (a = EmptyString) || PyStr.endswith sep_str a then a +:+ b
  else a +:+ sep_str +:+ b.

(** No separator in a name. *)
Fixpoint no_sep (s : string) : bool :=
  match s with
  | EmptyString => true
  | String c s' => if decide (c = sep) then false else no_sep s'
  end.

(** [os.path.join(a, *parts)] *)
Definition join_all (a : string) (parts : list string) : string :=
  foldl join a parts.

End Path.

(** ** modmanager.py: the version comparator *)

Module ModManager.

(** [SCRIPT_VERSION] *)
Definition SCRIPT_VERSION : string := "1.0.9".

(** [semver_normalize(tag)] on [None] or a [str]. *)
Definition semver_normalize (tag : option string) : option string :=
  match tag with
  | None => None
  | Some EmptyString => None
  | Some tag =>
      let t := PyStr.strip tag in
      if PyStr.startswith "v" t || PyStr.startswith "V" t
      then Some (PyStr.drop 1 t)
      else Some t
  end.

(** "Strips exactly one leading v or V", in the words of the
    specification. *)
Definition strip_one_v (s : string) : string :=
  match s with
  | String c r =>
      if bool_decide (c = "v"%char) || bool_decide (c = "V"%char) then r else s
  | EmptyString => EmptyString
  end.

(** The components of [s.split(".")] that pass [isdigit]. *)
Definition digit_components (s : string) : list string :=
  filter (fun x => Is_true (PyStr.isdigit x)) (PyStr.split "." s).

(** [[int(x) for x in s.split(".") if x.isdigit()]]; [None] stands for
    the exception: calling [.split] on [None] raises [AttributeError],
    and [int] raises [ValueError] on a component it refuses. *)
Definition int_parts (s : option string) : option (list N) :=
  match s with
  | None => None
  | Some s => mapM PyStr.int_of_digits (digit_components s)
  end.

(** [int] accepts every component that passed [isdigit]. *)
Definition int_readable (s : string) : bool :=
  forallb (fun x => PyStr.all_digits x && (String.length x <=? PyStr.int_max_str_digits))
          (digit_components s).

(** Python's ordering of lists and of tuples, [a > b]. *)
Fixpoint list_gt (a b : list N) : bool :=
  match a, b with
  | [], _ => false
  | _ :: _, [] => true
  | x :: a', y :: b' => if (x =? y)%N then list_gt a' b' else (y <? x)%N
  end.

(** The comparison in the words of the specification: both sequences
    are padded with zeros on the right to a common length and compared
    lexicographically. *)
Definition pad (n : nat) (l : list N) : list N :=
  l ++ replicate (n - length l) 0%N.

Definition padded_gt (a b : list N) : bool :=
  let n := Nat.max (length a) (length b) in
  list_gt (pad n a) (pad n b).

(** The same comparison by recursion: a missing component counts as
    zero. *)
Fixpoint gt_padded (a b : list N) : bool :=
  match a, b with
  | [], _ => false
  | x :: a', [] => if (x =? 0)%N then gt_padded a' [] else true
  | x :: a', y :: b' => if (x =? y)%N then gt_padded a' b' else (y <? x)%N
  end.

(** A version string made of one or more non-empty components of the
    digits 0 to 9, separated by dots. *)
Definition is_dotted_numeric (s : string) : bool :=
  forallb PyStr.isdecimal (PyStr.split "." s).

Definition release_of (s : string) : list N :=
  PyStr.int <$> PyStr.split "." s.

(** Every component is short enough for [int]. *)
Definition convertible (s : string) : bool :=
  forallb (fun x => String.length x <=? PyStr.int_max_str_digits) (PyStr.split "." s).

(** The release of a version as its comparison key holds it: without
    its trailing zeros. *)
Fixpoint drop_trailing_zeros (l : list N) : list N :=
  match l with
  | [] => []
  | x :: r =>
      match drop_trailing_zeros r with
      | [] => if (x =? 0)%N then [] else [x]
      | r' => x :: r'
      end
  end.

(** The third-party [packaging.version] module is not part of the
    repository; the code relies on [parse], which raises on what it
    does not accept ([None] here), and on [>] between parsed versions.
    The interface states how the library treats a version that is a
    release segment only: [Version] converts each component with
    [int], so a component [int] refuses makes [parse] raise; the
    comparison key of the version holds the release without its
    trailing zeros ([pkg_release]), and two such versions are compared
    as Python compares the tuples of their keys. *)
Class Packaging := {
  Version : Type;
  pkg_parse : string -> option Version;
  pkg_gt : Version -> Version -> bool;
  pkg_release : Version -> option (list N);
  pkg_parse_release : forall s,
    is_dotted_numeric s = true ->
    if convertible s
    then exists v, pkg_parse s = Some v /\
                   pkg_release v = Some (drop_trailing_zeros (release_of s))
    else pkg_parse s = None;
  pkg_gt_release : forall a b ra rb,
    pkg_release a = Some ra -> pkg_release b = Some rb ->
    pkg_gt a b = list_gt ra rb
}.

Section Comparator.
Context {P : Packaging}.

(** [pkg_version.parse(x)]; a [None] argument raises [TypeError]. *)
Definition parse (x : option string) : option Version :=
  match x with
  | None => None
  | Some s => pkg_parse s
  end.

(** [latest != installed and latest is not None] *)
Definition differs_and_present (installed latest : option string) : bool :=
  bool_decide (latest <> installed) && bool_decide (latest <> None).

(** [is_version_newer(installed, latest)]: the outer [try] is the
    first [match], the inner [try] the second. *)
Definition is_version_newer (installed latest : option string) : bool :=
  match parse latest, parse installed with
  | Some l, Some i => pkg_gt l i
  | _, _ =>
      match int_parts installed, int_parts latest with
      | Some i_parts, Some l_parts => list_gt l_parts i_parts
      | _, _ => differs_and_present installed latest
      end
  end.

End Comparator.

(** The fallback in the words of the specification: "newer" exactly
    when the candidate is non-empty and differs from the installed
    string. *)
Definition newer_by_inequality (installed latest : option string) : bool :=
  bool_decide (latest <> None) && bool_decide (latest <> Some EmptyString)
  && bool_decide (latest <> installed).

(** A minimal implementation of the interface: it accepts exactly the
    release-only versions whose components [int] converts. *)
Definition release_only_parse (s : string) : option (list N) :=
  if is_dotted_numeric s && convertible s
  then Some (drop_trailing_zeros (release_of s)) else None.

#[refine, export] Instance release_only : Packaging :=
  {| Version := list N; pkg_parse := release_only_parse; pkg_gt := list_gt;
     pkg_release := Some |}.
Proof.
  - intros s Hs. unfold release_only_parse. rewrite Hs.
    destruct (convertible s); [|done]. by eexists.
  - by intros a b ra rb [= ->] [= ->].
Defined.

(** *** Release metadata and the check workflow *)

(** The values [json.loads] produces (numbers are integers here); an
    object is the list of its items, keys distinct. *)
#[warnings="-register-all"]
Inductive json : Type :=
  | JNull
  | JBool (b : bool)
  | JNum (z : Z)
  | JStr (s : string)
  | JArr (l : list json)
  | JObj (items : list (string * json)).

(** Python truthiness, [bool(j)]. *)
Definition truthy (j : json) : bool :=
  match j with
  | JNull => false
  | JBool b => b
  | JNum z => negb (z =? 0)%Z
  | JStr s => negb (bool_decide (s = EmptyString))
  | JArr l => match l with [] => false | _ => true end
  | JObj l => match l with [] => false | _ => true end
  end.

Fixpoint assoc (k : string) (items : list (string * json)) : option json :=
  match items with
  | [] => None
  | (k', v) :: rest => if decide (k = k') then Some v else assoc k rest
  end.

(** [j.get(k)]: only a [dict] has the method. *)
Definition dict_get (j : json) (k : string) : outcome json :=
  match j with
  | JObj items => Returned (default JNull (assoc k items))
  | _ => Raised AttributeError
  end.

(** [a or b] *)
Definition py_or (a b : json) : json := if truthy a then a else b.

(** [semver_normalize] applied to a JSON value: a falsy value gives
    [None] whatever its type, a truthy one must be a [str] to have
    [.strip]. *)
Definition semver_normalize_json (j : json) : outcome (option string) :=
  if truthy j then
    match j with
    | JStr s => Returned (semver_normalize (Some s))
    | _ => Raised AttributeError
    end
  else Returned None.

(** What the request of [fetch_latest_release_info] meets. *)
Inductive fetch_event : Type :=
  | FetchTransportError
  | FetchTimeout
  | FetchHTTPError (code : nat)
  | FetchBody (decoded : option json).

(** [fetch_latest_release_info()]: the body of the [try], then both
    [except] clauses fall through to [return None]. [FetchBody None] is
    a body that is not UTF-8 or not JSON. *)
Definition fetch_body (ev : fetch_event) : outcome json :=
  match ev with
  | FetchTransportError => Raised URLError
  | FetchTimeout => Raised TimeoutError
  | FetchHTTPError code => Raised (HTTPError code)
  | FetchBody None => Raised JSONDecodeError
  | FetchBody (Some j) => Returned j
  end.

(** The failures of the request: transport error, timeout, error
    status, body that does not decode. *)
Definition fetch_fails (ev : fetch_event) : bool :=
  match ev with
  | FetchBody (Some _) => false
  | _ => true
  end.

Definition fetch_latest_release_info (ev : fetch_event) : option json :=
  match fetch_body ev with
  | Returned j => Some j
  | Raised _ => None
  end.

(** The settings file on disk. *)
Inductive file_state : Type :=
  | FileJson (content : gmap string json)
  | FileTruncated.

(** What [save_settings] meets: [open(.., "w")] fails, the dump fails
    after the file was truncated, or all goes well. *)
Inductive save_event : Type := SaveOk | SaveOpenFails | SaveDumpFails.

(** The module-level [settings] dictionary, the settings file and the
    update indicator of the window. *)
Record app : Type := {
  settings : gmap string json;
  settings_file : file_state;
  update_status : option (bool * string)
}.

(** [save_settings()]: the exception is printed, never raised. *)
Definition save_settings (sv : save_event) : M app unit :=
  modify (fun st =>
    match sv with
    | SaveOk =>
        {| settings := settings st; settings_file := FileJson (settings st);
           update_status := update_status st |}
    | SaveOpenFails => st
    | SaveDumpFails =>
        {| settings := settings st; settings_file := FileTruncated;
           update_status := update_status st |}
    end).

(** [self.set_update_status(available, label_text)] *)
Definition set_update_status (available : bool) (label : string) : M app unit :=
  modify (fun st =>
    {| settings := settings st; settings_file := settings_file st;
       update_status := Some (available, label) |}).

(** [settings["last_release_tag"] = tag] *)
Definition set_last_release_tag (tag : json) : M app unit :=
  modify (fun st =>
    {| settings := <["last_release_tag" := tag]> (settings st);
       settings_file := settings_file st;
       update_status := update_status st |}).

(** [str(tag)] for the tags that reach the f-string (strings). *)
Definition tag_text (tag : json) : string :=
  match tag with
  | JStr s => s
  | _ => EmptyString
  end.

Definition nonempty (o : option string) : bool :=
  match o with
  | Some (String _ _) => true
  | _ => false
  end.

Section Check.
Context {P : Packaging}.

(** [ModManager._check_updates_and_update_ui] *)
Definition _check_updates_and_update_ui (ev : fetch_event) (sv : save_event)
    : M app unit :=
  match fetch_latest_release_info ev with
  | None => set_update_status false "Unable to check"
  | Some latest =>
      if negb (truthy latest) then set_update_status false "Unable to check"
      else
        t1 ← lift (dict_get latest "tag_name");
        tag ← (if truthy t1 then ret t1
               else t2 ← lift (dict_get latest "name"); ret (py_or t1 t2));
        tag_norm ← lift (semver_normalize_json tag);
        st ← get;
        installed ← lift (semver_normalize_json
                            (default (JStr SCRIPT_VERSION) (settings st !! "version")));
        if nonempty tag_norm && nonempty installed
           && is_version_newer installed tag_norm
        then
          set_last_release_tag tag;;
          save_settings sv;;
          set_update_status true ("Update available (" +:+ tag_text tag +:+ ")")
        else
          set_last_release_tag tag;;
          save_settings sv;;
          set_update_status false "Up to date"
  end.

End Check.

(** *** The downloader *)

(** One [resp.read(block_size)]. *)
Inductive read_result : Type :=
  | Chunk (data : string)
  | ReadFails (e : exn).

(** A response: the [Content-Length] header if any, and what the
    successive reads give; after the last element of [stream] a read
    returns the empty chunk. *)
Record http_response : Type := {
  content_length : option string;
  stream : list read_result
}.

(** The network and the operating system as the download meets them. *)
Record download_env : Type := {
  urlopen : outcome http_response;
  makedirs_error : option exn;
  open_error : option exn;
  write_error : nat -> option exn;
  print_error : option exn
}.

(** The files (path to content) and the calls made to the progress
    callback. *)
Record dl_state : Type := {
  files : gmap string string;
  progress_log : list (nat * option N)
}.

(** A caller-supplied [progress_callback(received, total)]: it returns
    or raises, possibly an exception that is no [Exception]. *)
Definition callback : Type := nat -> option N -> outcome unit.

(** A callback that raises nothing but [Exception]s. *)
Definition contained (cb : option callback) : Prop :=
  match cb with
  | Some f => forall d t e, f d t = Raised e -> is_exception e = true
  | None => True
  end.

(** [int(total) if total and total.isdigit() else None] *)
Definition parse_total (h : option string) : outcome (option N) :=
  match h with
  | Some s =>
      if PyStr.isdigit s then
        match PyStr.int_of_digits s with
        | Some n => Returned (Some n)
        | None => Raised ValueError
        end
      else Returned None
  | None => Returned None
  end.

(** [print(..)] in the handler of the download: writing to the standard
    output can fail. *)
Definition print_failure (env : download_env) : M dl_state unit :=
  match print_error env with
  | Some e => raise e
  | None => ret tt
  end.

(** [os.makedirs(d, exist_ok=True)]: the empty path has no directory to
    make. *)
Definition makedirs (env : download_env) (d : string) : M dl_state unit :=
  if bool_decide (d = EmptyString) then raise FileNotFoundError
  else match makedirs_error env with
       | Some e => raise e
       | None => ret tt
       end.

(** [open(dest_path, "wb")]: creates or truncates. *)
Definition open_wb (env : download_env) (dest_path : string) : M dl_state unit :=
  match open_error env with
  | Some e => raise e
  | None => modify (fun st =>
      {| files := <[dest_path := EmptyString]> (files st);
         progress_log := progress_log st |})
  end.

(** [out.write(chunk)], the [n]-th write of the download. *)
Definition write_chunk (env : download_env) (dest_path : string) (n : nat)
    (chunk : string) : M dl_state unit :=
  match write_error env n with
  | Some e => raise e
  | None => modify (fun st =>
      {| files := <[dest_path := default EmptyString (files st !! dest_path) +:+ chunk]>
                    (files st);
         progress_log := progress_log st |})
  end.

(** The call of the callback, recorded. *)
Definition call_callback (cb : callback) (downloaded : nat) (total : option N)
    : M dl_state unit :=
  modify (fun st =>
    {| files := files st;
       progress_log := progress_log st ++ [(downloaded, total)] |});;
  lift (cb downloaded total).

(** The [while True] loop, by recursion on what the reads give. *)
Fixpoint read_loop (env : download_env) (dest_path : string)
    (progress_callback : option callback) (total : option N)
    (reads : list read_result) (n downloaded : nat) : M dl_state unit :=
  match reads with
  | [] => ret tt
  | ReadFails e :: _ => raise e
  | Chunk EmptyString :: _ => ret tt
  | Chunk chunk :: rest =>
      write_chunk env dest_path n chunk;;
      let downloaded := downloaded + String.length chunk in
      match progress_callback with
      | Some cb => try_except (call_callback cb downloaded total) (fun _ => ret tt)
      | None => ret tt
      end;;
      read_loop env dest_path progress_callback total rest (S n) downloaded
  end.

(** [download_url_to_path(url, dest_path, progress_callback)] *)
Definition download_url_to_path (env : download_env) (dest_path : string)
    (progress_callback : option callback) : M dl_state bool :=
  try_except
    (resp ← lift (urlopen env);
     total ← lift (parse_total (content_length resp));
     makedirs env (Path.dirname dest_path);;
     open_wb env dest_path;;
     read_loop env dest_path progress_callback total (stream resp) 0 0;;
     ret true)
    (fun _ => print_failure env;; ret false).

(** The download in the words of its contract: the bytes the stream
    delivers before it ends, whether the transfer meets no error, and
    the progress reports a callback receives. *)
Fixpoint received (reads : list read_result) : string :=
  match reads with
  | Chunk (String c s) :: rest => String c s +:+ received rest
  | _ => EmptyString
  end.

Fixpoint transfer_ok (werr : nat -> option exn) (reads : list read_result)
    (n : nat) : bool :=
  match reads with
  | [] => true
  | ReadFails _ :: _ => false
  | Chunk EmptyString :: _ => true
  | Chunk _ :: rest => bool_decide (werr n = None) && transfer_ok werr rest (S n)
  end.

Definition header_read (resp : http_response) : bool :=
  match parse_total (content_length resp) with
  | Returned _ => true
  | Raised _ => false
  end.

Definition clean_run (env : download_env) (dest_path : string) : bool :=
  match urlopen env with
  | Raised _ => false
  | Returned resp =>
      header_read resp
      && negb (bool_decide (Path.dirname dest_path = EmptyString))
      && bool_decide (makedirs_error env = None)
      && bool_decide (open_error env = None)
      && transfer_ok (write_error env) (stream resp) 0
  end.

Fixpoint reports (total : option N) (reads : list read_result) (downloaded : nat)
    : list (nat * option N) :=
  match reads with
  | Chunk (String c s) :: rest =>
      let downloaded := downloaded + String.length (String c s) in
      (downloaded, total) :: reports total rest downloaded
  | _ => []
  end.

(** The reports that are recorded: none without a callback. *)
Definition logged (cb : option callback) (l : list (nat * option N))
    : list (nat * option N) :=
  match cb with Some _ => l | None => [] end.

(** The file as [open(dest_path, "wb")] leaves it. *)
Definition opened (dest_path : string) (st : dl_state) : dl_state :=
  {| files := <[dest_path := EmptyString]> (files st);
     progress_log := progress_log st |}.

(** The state after a chunk went through: written, counted, reported. *)
Definition after_chunk (dest_path : string) (cb : option callback)
    (total : option N) (chunk : string) (downloaded : nat) (st : dl_state)
    : dl_state :=
  {| files := <[dest_path := default EmptyString (files st !! dest_path) +:+ chunk]>
                (files st);
     progress_log :=
       match cb with
       | Some _ => progress_log st ++ [(downloaded + String.length chunk, total)]
       | None => progress_log st
       end |}.

(** The exception of the callback that [except Exception] does not
    catch, if the call [cb(d, t)] raises one. *)
Definition escape (cb : option callback) (d : nat) (t : option N) : option exn :=
  match cb with
  | Some f =>
      match f d t with
      | Raised e => if is_exception e then None else Some e
      | Returned _ => None
      end
  | None => None
  end.

(** What the outer handler makes of an exception [e] raised at state
    [st]: the failure is printed and [False] returned. *)
Definition failed (env : download_env) (e : exn) (st : dl_state)
    : outcome bool * dl_state :=
  try_except (raise e) (fun _ => print_failure env;; ret false) st.

(** A network and an operating system whose errors are [Exception]s. *)
Definition ordinary (env : download_env) : Prop :=
  (forall e, urlopen env = Raised e -> is_exception e = true) /\
  (forall e, makedirs_error env = Some e -> is_exception e = true) /\
  (forall e, open_error env = Some e -> is_exception e = true) /\
  (forall n e, write_error env n = Some e -> is_exception e = true) /\
  (forall resp e, urlopen env = Returned resp -> ReadFails e ∈ stream resp ->
     is_exception e = true).

(** *** Enabling and disabling a mod folder *)

(** The new folder name computed by [toggle_selected_mod]. *)
Definition toggle_name (folder_name : string) : string :=
  if PyStr.startswith "DISABLED_" folder_name
  then PyStr.replace "DISABLED_" EmptyString (Some 1) folder_name
  else "DISABLED_" +:+ folder_name.

(** The window: the folder [char_folder] of the selected item if one is
    selected, the selection in the list of mods, the paths carried by
    the entries of that list, and the mod folders that exist. *)
Record mods : Type := {
  selected_item : option string;
  selected_mod_path : option string;
  mod_list : list string;
  folders : gset string
}.

(** [os.rename(src, dst)] on mod folders; [rename_error] is the refusal
    of the operating system, if any. A destination it accepts although
    it exists (an empty directory, on POSIX) is replaced. *)
Definition rename_folder (rename_error : option exn) (src dst : string)
    : M mods unit :=
  match rename_error with
  | Some e => raise e
  | None => modify (fun st =>
      {| selected_item := selected_item st;
         selected_mod_path := selected_mod_path st;
         mod_list := mod_list st;
         folders := {[dst]} ∪ (folders st ∖ {[src]}) |})
  end.

(** A folder directly in [char_folder]. *)
Definition in_folder (char_folder p : string) : bool :=
  bool_decide (p = Path.join char_folder (Path.basename p))
  && negb (bool_decide (Path.basename p = EmptyString)).

(** The names [f] of [os.listdir(char_folder)] for which
    [os.path.join(char_folder, f)] is a directory, in the order of the
    listing. *)
Definition listdir (char_folder : string) (fs : gset string) : list string :=
  Path.basename <$> elements (filter (fun p => Is_true (in_folder char_folder p)) fs).

(** [ModManager.load_mods]: [clear_mod_list] empties the list and
    resets the selection, then the folders of the selected item are
    listed ([os.makedirs] is taken to succeed; the observer and the
    counters change nothing here). *)
Definition load_mods : M mods unit :=
  modify (fun st =>
    {| selected_item := selected_item st;
       selected_mod_path := None;
       mod_list :=
         match selected_item st with
         | None => []
         | Some char_folder =>
             Path.join char_folder <$> listdir char_folder (folders st)
         end;
       folders := folders st |}).

(** [ModManager.select_mod(list_item)] for the [i]-th entry of the list. *)
Definition select_mod (i : nat) : M mods unit :=
  modify (fun st =>
    match mod_list st !! i with
    | Some p =>
        {| selected_item := selected_item st; selected_mod_path := Some p;
           mod_list := mod_list st; folders := folders st |}
    | None => st
    end).

(** [ModManager.toggle_selected_mod] *)
Definition toggle_selected_mod (rename_error : option exn) : M mods unit :=
  st ← get;
  match selected_mod_path st with
  | None => ret tt
  | Some EmptyString => ret tt
  | Some path =>
      if negb (bool_decide (path ∈ folders st)) then ret tt
      else
        let parent_folder := Path.dirname path in
        let folder_name := Path.basename path in
        let new_path := Path.join parent_folder (toggle_name folder_name) in
        try_except
          (rename_folder rename_error path new_path;;
           modify (fun st =>
             {| selected_item := selected_item st;
                selected_mod_path := Some new_path;
                mod_list := mod_list st;
                folders := folders st |}))
          (fun _ => ret tt);;
        load_mods
  end.

(** The components of a version string when all but possibly the first
    are numbers and the first is made of digits (the shape of every tail
    of a dotted-numeric string). *)
Definition digits_then_numbers (s : string) : Prop :=
  match PyStr.split "." s with
  | h :: r => PyStr.all_digits h = true /\ forallb PyStr.isdecimal r = true
  | [] => False
  end.

(** *** The list of mods and its counters *)

(** [not f.startswith("DISABLED_")] *)
Definition enabled (f : string) : bool := negb (PyStr.startswith "DISABLED_" f).




(** [f.replace("DISABLED_", "")], the name shown by [load_mods]. *)
Definition display_name (f : string) : string :=
  PyStr.replace "DISABLED_" EmptyString None f.

(** The text of the list entry [load_mods] makes for folder [f]. *)
Definition item_text (f : string) : string :=
  if PyStr.startswith "DISABLED_" f then "[DISABLED] " +:+ display_name f
  else display_name f.

(** *** Theme and grid *)

(** [j == "light"] *)
Definition is_light (j : json) : bool :=
  match j with
  | JStr s => bool_decide (s = "light")
  | _ => false
  end.

(** [ModManager.toggle_theme] ([apply_theme] only restyles the window). *)
Definition toggle_theme (sv : save_event) : M app unit :=
  st ← get;
  let theme :=
    if is_light (default (JStr "dark") (settings st !! "theme"))
    then "dark" else "light" in
  modify (fun st =>
    {| settings := <["theme" := JStr theme]> (settings st);
       settings_file := settings_file st;
       update_status := update_status st |});;
  save_settings sv.

(** The loop of [load_items] that fills the grid: each item with the row
    and the column of its widget. *)
Fixpoint populate_grid {A} (items : list A) (row col : nat) : list (A * nat * nat) :=
  match items with
  | [] => []
  | item :: rest =>
      (item, row, col) ::
      (if 3 <=? col + 1 then populate_grid rest (row + 1) 0
       else populate_grid rest row (col + 1))
  end.

End ModManager.

(** ** The file system shared by the updaters *)

Module Fs.

(** What a workflow does besides reading and writing files. *)
Inductive event : Type :=
  | EvSaveInstallPath (path : string)
  | EvKill (image : string)
  | EvDownload (url dest : string)
  | EvSpawn (script : string)
  | EvLaunch (path : string)
  | EvExit (code : nat).

(** Regular files (path to content), the paths another process keeps
    open, and the trace of events. Directories are not tracked:
    [os.makedirs(.., exist_ok=True)] is taken to succeed. *)
Record world : Type := {
  files : gmap string string;
  locked : gset string;
  trace : list event
}.

Definition set_files (f : gmap string string) (w : world) : world :=
  {| files := f; locked := locked w; trace := trace w |}.

Definition emit (e : event) : M world unit :=
  modify (fun w => {| files := files w; locked := locked w; trace := trace w ++ [e] |}).

(** [os.path.exists(p)] *)
Definition exists_ (p : string) : M world bool :=
  fun w => (Returned (bool_decide (is_Some (files w !! p))), w).

(** [os.remove(p)] and [os.unlink(p)] *)
Definition remove (p : string) : M world unit :=
  fun w =>
    match files w !! p with
    | None => (Raised FileNotFoundError, w)
    | Some _ =>
        if bool_decide (p ∈ locked w) then (Raised PermissionError, w)
        else (Returned tt, set_files (delete p (files w)) w)
    end.

(** [os.rename(src, dst)]; on Windows ([nt]) an existing [dst] is
    refused, elsewhere it is replaced. *)
Definition rename (nt : bool) (src dst : string) : M world unit :=
  fun w =>
    match files w !! src with
    | None => (Raised FileNotFoundError, w)
    | Some c =>
        if bool_decide (src ∈ locked w) || bool_decide (dst ∈ locked w)
        then (Raised PermissionError, w)
        else if bool_decide (src = dst) then (Returned tt, w)
        else if nt && bool_decide (is_Some (files w !! dst))
        then (Raised FileExistsError, w)
        else (Returned tt, set_files (<[dst := c]> (delete src (files w))) w)
    end.

(** [open(p, "wb")] followed by the write of [data] and the close. *)
Definition write_file (p data : string) : M world unit :=
  fun w =>
    if bool_decide (p ∈ locked w) then (Raised PermissionError, w)
    else (Returned tt, set_files (<[p := data]> (files w)) w).

(** [shutil.copy2(src, dst)]; copying a file onto itself raises
    [SameFileError], an [OSError]. *)
Definition copy2 (src dst : string) : M world unit :=
  fun w =>
    match files w !! src with
    | None => (Raised FileNotFoundError, w)
    | Some c =>
        if bool_decide (src = dst) then (Raised OSError, w)
        else write_file dst c w
    end.

(** [shutil.move(src, dst)] between files: [os.rename], and on
    [OSError] the copy followed by [os.unlink(src)]. *)
Definition move (nt : bool) (src dst : string) : M world unit :=
  try_except (rename nt src dst)
             (fun _ => copy2 src dst;; remove src).

(** [shutil.rmtree(d, ignore_errors=True)]: every file below [d] goes. *)
Definition below (d p : string) : bool :=
  PyStr.startswith (d +:+ Path.sep_str) p.

Definition rmtree (d : string) : M world unit :=
  modify (fun w =>
    set_files (filter (fun kv => ¬ Is_true (below d kv.1)) (files w)) w).

(** *** Streaming with [requests] *)

Inductive read_result : Type :=
  | Chunk (data : string)
  | ReadFails (e : exn).

(** A response of [requests.get(url, stream=True)]. *)
Record response : Type := {
  status_code : nat;
  content_length : option string;
  stream : list read_result
}.

(** The network: what a GET of each URL meets. *)
Definition network : Type := string -> outcome response.

(** [int(s)] on a header value. *)
Definition py_int (s : string) : outcome Z :=
  match PyStr.py_int s with
  | Some z => Returned z
  | None => Raised ValueError
  end.

(** [int(r.headers.get('content-length', 0))] *)
Definition total_of (r : response) : outcome Z :=
  match content_length r with
  | Some h => py_int h
  | None => Returned 0%Z
  end.

(** [r.raise_for_status()] *)
Definition raise_for_status (r : response) : M world unit :=
  if (400 <=? status_code r) && (status_code r <? 600)
  then raise (HTTPError (status_code r))
  else ret tt.

(** A response the downloaders of the installers accept: no error
    status, and a length header, if present, that [int] reads. *)
Definition status_ok (r : response) : bool :=
  negb ((400 <=? status_code r) && (status_code r <? 600)).

Definition header_ok (r : response) : bool :=
  match total_of r with
  | Returned _ => true
  | Raised _ => false
  end.

(** A length header that [int] reads as a number other than zero. *)
Definition header_nonzero (r : response) : bool :=
  match total_of r with
  | Returned z => negb (z =? 0)%Z
  | Raised _ => false
  end.

(** The bytes of a run of chunks. *)
Definition concat (chunks : list string) : string :=
  foldr String.append EmptyString chunks.

(** [f.write(chunk)] on the file opened at [p]. *)
Definition append (p chunk : string) : M world unit :=
  modify (fun w =>
    set_files (<[p := default EmptyString (files w !! p) +:+ chunk]> (files w)) w).


End Fs.

(** ** Zip archives *)

Module Zip.

(** A member of an archive as [ZipFile.open] and the copy of its bytes
    meet it: sound, unreadable from the start, or failing after
    [written] was delivered (a bad CRC shows at the end of the data). *)
Inductive payload : Type :=
  | Good (data : string)
  | BadOpen
  | BadRead (written : string).

Record member : Type := { name : string; data : payload }.

(** [zipfile.ZipFile(path, 'r')] then [namelist()]: the decoding of the
    archive bytes is library code, taken as a parameter [decoder]. *)
Definition decoder : Type := string -> outcome (list member).

(** [with z.open(m) as source, open(target, 'wb') as target:
    shutil.copyfileobj(source, target)] *)
Definition extract_to (m : member) (target : string) : M Fs.world unit :=
  match data m with
  | BadOpen => raise BadZipFile
  | Good d => Fs.write_file target d
  | BadRead written => Fs.write_file target written;; raise BadZipFile
  end.

Definition is_dir (m : member) : bool := PyStr.endswith "/" (name m).

Definition is_good (m : member) : bool :=
  is_dir m || match data m with Good _ => true | _ => false end.

End Zip.

(** ** update.py: the installer / updater *)

Module Update.

Definition GITHUB_RELEASES_URL : string :=
  "https://github.com/Sanddino00/Mod-Manager/releases/latest/download".
Definition MODMANAGER_EXE_NAME : string := "modmanager.exe".
Definition UPDATE_EXE_NAME : string := "update.exe".
Definition RESOURCES_ZIP_NAME : string := "resources.zip".
Definition resources_folder_name : string := "resources".

(** [f"{GITHUB_RELEASES_URL}/{name}"] *)
Definition asset_url (name : string) : string :=
  GITHUB_RELEASES_URL +:+ "/" +:+ name.

(** [for chunk in r.iter_content(chunk_size=8192): if chunk: f.write(chunk)]
    (the percentage only moves the progress bar). *)
Fixpoint iter_content (dest : string) (reads : list Fs.read_result)
    : M Fs.world unit :=
  match reads with
  | [] => ret tt
  | Fs.ReadFails e :: _ => raise e
  | Fs.Chunk chunk :: rest =>
      when_ (negb (bool_decide (chunk = EmptyString))) (Fs.append dest chunk);;
      iter_content dest rest
  end.

(** [InstallerUpdater.download_file(url, dest)] *)
Definition download_file (net : Fs.network) (url dest : string) : M Fs.world unit :=
  Fs.emit (Fs.EvDownload url dest);;
  r ← lift (net url);
  Fs.raise_for_status r;;
  total ← lift (Fs.total_of r);
  Fs.write_file dest EmptyString;;
  iter_content dest (Fs.stream r).

(** The [parts] of a member after the removal of a leading
    [resources] component. *)
Definition member_parts (member : string) : list string :=
  match PyStr.split Path.sep member with
  | h :: t =>
      if bool_decide (PyStr.lower h = PyStr.lower resources_folder_name)
      then t else h :: t
  | [] => []
  end.

(** [os.path.join(dest_folder, *parts)] *)
Definition target_path (dest_folder member : string) : string :=
  Path.join_all dest_folder (member_parts member).

(** A target that names a directory cannot be opened for writing. *)
Definition names_directory (dest_folder target : string) : bool :=
  bool_decide (target = dest_folder) || PyStr.endswith Path.sep_str target.

(** The body of the [for member in zip_ref.namelist()] loop. *)
Definition merge_member (dest_folder : string) (m : Zip.member) : M Fs.world unit :=
  let target := target_path dest_folder (Zip.name m) in
  if Zip.is_dir m then ret tt
  else if names_directory dest_folder target then
    match Zip.data m with
    | Zip.BadOpen => raise BadZipFile
    | _ => raise IsADirectoryError
    end
  else Zip.extract_to m target.

Fixpoint merge_members (dest_folder : string) (ms : list Zip.member)
    : M Fs.world unit :=
  match ms with
  | [] => ret tt
  | m :: rest => merge_member dest_folder m;; merge_members dest_folder rest
  end.

(** [open(path, 'rb')] and the decoding of the archive. *)
Definition open_zip (dec : Zip.decoder) (zip_path : string)
    : M Fs.world (list Zip.member) :=
  w ← get;
  match Fs.files w !! zip_path with
  | None => raise FileNotFoundError
  | Some bytes => lift (dec bytes)
  end.

(** [InstallerUpdater.unzip_and_merge(zip_path, dest_folder)] *)
Definition unzip_and_merge (dec : Zip.decoder) (zip_path dest_folder : string)
    : M Fs.world unit :=
  ms ← open_zip dec zip_path;
  merge_members dest_folder ms.

Definition modmanager_path (install_dir : string) : string :=
  Path.join install_dir MODMANAGER_EXE_NAME.
Definition update_path (install_dir : string) : string :=
  Path.join install_dir UPDATE_EXE_NAME.
Definition update_new_path (install_dir : string) : string :=
  Path.join install_dir "update_new.exe".
Definition resources_path (install_dir : string) : string :=
  Path.join install_dir resources_folder_name.
Definition tmp_zip (install_dir : string) : string :=
  Path.join install_dir RESOURCES_ZIP_NAME.

(** [modmanager_path.replace(".exe", "_old.exe")] *)
Definition old_path (install_dir : string) : string :=
  PyStr.replace ".exe" "_old.exe" None (modmanager_path install_dir).

(** The three steps of [run] that touch the executable. *)
Definition download_modmanager (net : Fs.network) (nt : bool) (install_dir : string)
    : M Fs.world unit :=
  e ← Fs.exists_ (modmanager_path install_dir);
  when_ e (Fs.rename nt (modmanager_path install_dir) (old_path install_dir));;
  download_file net (asset_url MODMANAGER_EXE_NAME) (modmanager_path install_dir);;
  e ← Fs.exists_ (old_path install_dir);
  when_ e (Fs.remove (old_path install_dir)).

(** [InstallerUpdater.run]: [install_dir] is the text of the path field,
    [shortcut] what the optional shortcut step does ([Returned tt] when
    the box is not ticked). The status label and the progress bar are
    not modelled. *)
Definition run (net : Fs.network) (dec : Zip.decoder) (nt : bool)
    (shortcut : outcome unit) (install_dir : string) : M Fs.world unit :=
  if bool_decide (install_dir = EmptyString) then ret tt
  else
    Fs.emit (Fs.EvSaveInstallPath install_dir);;
    Fs.emit (Fs.EvKill MODMANAGER_EXE_NAME);;
    e ← Fs.exists_ (update_new_path install_dir);
    when_ (negb e)
      (download_file net (asset_url UPDATE_EXE_NAME) (update_new_path install_dir));;
    download_modmanager net nt install_dir;;
    download_file net (asset_url RESOURCES_ZIP_NAME) (tmp_zip install_dir);;
    unzip_and_merge dec (tmp_zip install_dir) (resources_path install_dir);;
    Fs.remove (tmp_zip install_dir);;
    lift shortcut;;
    Fs.emit (Fs.EvLaunch (modmanager_path install_dir)).


(** The executables launched according to a trace. *)
Definition launches (t : list Fs.event) : list string :=
  omap (fun e => match e with Fs.EvLaunch p => Some p | _ => None end) t.

(** A computation that launches nothing. *)
Definition silent {A} (m : M Fs.world A) : Prop :=
  forall w, launches (Fs.trace (m w).2) = launches (Fs.trace w).

(** A computation that launches [exe] as its last act when it returns,
    and nothing when it raises. *)
Definition launches_at_end {A} (exe : string) (m : M Fs.world A) : Prop :=
  forall w,
    match (m w).1 with
    | Returned _ => launches (Fs.trace (m w).2) = launches (Fs.trace w) ++ [exe]
    | Raised _ => launches (Fs.trace (m w).2) = launches (Fs.trace w)
    end.

(** The downloads of [run]: which asset goes to which path. *)
Definition planned (install_dir : string) (e : Fs.event) : Prop :=
  match e with
  | Fs.EvDownload url dest =>
      (url = asset_url UPDATE_EXE_NAME /\ dest = update_new_path install_dir) \/
      (url = asset_url MODMANAGER_EXE_NAME /\ dest = modmanager_path install_dir) \/
      (url = asset_url RESOURCES_ZIP_NAME /\ dest = tmp_zip install_dir)
  | _ => True
  end.

End Update.

(** ** old_updater/1.2/update.py *)

Module OldUpdater12.

Definition GITHUB_RELEASES : string :=
  "https://github.com/Sanddino00/Mod-Manager/releases/latest/download".
Definition MODMANAGER_EXE : string := "modmanager.exe".

(** The loop of [download_file]: every chunk is written, and with a
    callback the percentage divides by the announced length. *)
Fixpoint write_chunks (path : string) (with_callback : bool) (total_length : Z)
    (reads : list Fs.read_result) : M Fs.world unit :=
  match reads with
  | [] => ret tt
  | Fs.ReadFails e :: _ => raise e
  | Fs.Chunk chunk :: rest =>
      Fs.append path chunk;;
      when_ (with_callback && (total_length =? 0)%Z) (raise ZeroDivisionError);;
      write_chunks path with_callback total_length rest
  end.

(** [download_file(url, path, progress_callback)]: no status check. *)
Definition download_file (net : Fs.network) (url path : string)
    (with_callback : bool) : M Fs.world unit :=
  Fs.emit (Fs.EvDownload url path);;
  r ← lift (net url);
  total_length ← lift (Fs.total_of r);
  Fs.write_file path EmptyString;;
  write_chunks path with_callback total_length (Fs.stream r).

Definition modmanager_path (install_path : string) : string :=
  Path.join install_path MODMANAGER_EXE.
Definition old_path (install_path : string) : string :=
  Path.join install_path "modmanager_old.exe".
Definition modmanager_url : string := GITHUB_RELEASES +:+ "/" +:+ MODMANAGER_EXE.

(** The [DOWNLOAD MODMANAGER.EXE] section of [Updater.start_update]. *)
Definition download_modmanager (net : Fs.network) (nt : bool) (install_path : string)
    : M Fs.world unit :=
  e ← Fs.exists_ (modmanager_path install_path);
  when_ e
    (e' ← Fs.exists_ (old_path install_path);
     when_ e' (Fs.remove (old_path install_path));;
     Fs.rename nt (modmanager_path install_path) (old_path install_path));;
  download_file net modmanager_url (modmanager_path install_path) true;;
  e ← Fs.exists_ (old_path install_path);
  when_ e (Fs.remove (old_path install_path)).

Definition UPDATE_EXE : string := "update.exe".
Definition UPDATE_NEW_EXE : string := "update_new.exe".

Definition update_path (install_path : string) : string :=
  Path.join install_path UPDATE_EXE.
Definition update_new_path (install_path : string) : string :=
  Path.join install_path UPDATE_NEW_EXE.
Definition update_url : string := GITHUB_RELEASES +:+ "/" +:+ UPDATE_EXE.



(** The downloads of these sections: which asset goes to which path. *)
Definition planned (install_path : string) (e : Fs.event) : Prop :=
  match e with
  | Fs.EvDownload url dest =>
      (url = modmanager_url /\ dest = modmanager_path install_path) \/
      (url = update_url /\ dest = update_new_path install_path)
  | _ => True
  end.

End OldUpdater12.

(** ** old_updater/1.1/update.py *)

Module OldUpdater11.

(** [ZipFile.extractall(target)]: each file member goes to the path of
    its (relative, sanitised) name below [target]. *)
Definition extracted_path (target name : string) : string :=
  target +:+ Path.sep_str +:+ name.

Fixpoint extractall (target : string) (ms : list Zip.member) : M Fs.world unit :=
  match ms with
  | [] => ret tt
  | m :: rest =>
      (if Zip.is_dir m then ret tt
       else Zip.extract_to m (extracted_path target (Zip.name m)));;
      extractall target rest
  end.

(** The files [os.walk(tempdir)] meets, with their contents; the order
    of the walk is that of the directory listing. *)
Definition walk (tempdir : string) (w : Fs.world) : list (string * string) :=
  map_to_list (filter (fun kv => Is_true (Fs.below tempdir kv.1)) (Fs.files w)).

(** [dst] for the file found at [src] below [tempdir]: [rel] is the
    directory of the file relative to [tempdir]. *)
Definition copy_target (tempdir dest_folder src : string) : string :=
  let name := PyStr.drop (String.length (tempdir +:+ Path.sep_str)) src in
  let rel := Path.dirname name in
  let target_root :=
    if bool_decide (rel = EmptyString) then dest_folder
    else Path.join dest_folder rel in
  Path.join target_root (Path.basename name).

Fixpoint copy_all (tempdir dest_folder : string) (found : list (string * string))
    : M Fs.world unit :=
  match found with
  | [] => ret tt
  | (src, _) :: rest =>
      Fs.copy2 src (copy_target tempdir dest_folder src);;
      copy_all tempdir dest_folder rest
  end.

(** [unzip_to(zip_path, dest_folder, overwrite)]; [tempdir] is the
    directory [tempfile.mkdtemp()] returns. *)
Definition unzip_to (dec : Zip.decoder) (tempdir zip_path dest_folder : string)
    (overwrite : bool) : M Fs.world unit :=
  ms ← Update.open_zip dec zip_path;
  if overwrite then
    try_finally
      (extractall tempdir ms;;
       w ← get;
       copy_all tempdir dest_folder (walk tempdir w))
      (Fs.rmtree tempdir)
  else extractall dest_folder ms.




(** *** The deferred replacement *)
















(** *** The assets of a release *)

(** [a.get("name", "").lower()]: only a [dict] has [get], only a [str]
    has [lower]. *)
Definition asset_name (a : ModManager.json) : outcome string :=
  match a with
  | ModManager.JObj items =>
      match ModManager.assoc "name" items with
      | None => Returned EmptyString
      | Some (ModManager.JStr s) => Returned (PyStr.lower s)
      | Some _ => Raised AttributeError
      end
  | _ => Raised AttributeError
  end.

(** The first loop of [find_asset_by_name]: [name == exp]. *)
Fixpoint find_exact (assets : list ModManager.json) (exp : string)
    : outcome (option ModManager.json) :=
  match assets with
  | [] => Returned None
  | a :: rest =>
      match asset_name a with
      | Raised e => Raised e
      | Returned name =>
          if bool_decide (name = exp) then Returned (Some a)
          else find_exact rest exp
      end
  end.

(** The second loop: [exp in name]. *)
Fixpoint find_containing (assets : list ModManager.json) (exp : string)
    : outcome (option ModManager.json) :=
  match assets with
  | [] => Returned None
  | a :: rest =>
      match asset_name a with
      | Raised e => Raised e
      | Returned name =>
          if PyStr.contains exp name then Returned (Some a)
          else find_containing rest exp
      end
  end.

(** [find_asset_by_name(assets, expected_name)] *)
Definition find_asset_by_name (assets : list ModManager.json) (expected_name : string)
    : outcome (option ModManager.json) :=
  let exp := PyStr.lower expected_name in
  match find_exact assets exp with
  | Raised e => Raised e
  | Returned (Some a) => Returned (Some a)
  | Returned None => find_containing assets exp
  end.

(** *** The replacement of the executable in [task_update_exe] *)

(** From [tmp_target = dest_mod + ".new"] to
    [shutil.move(tmp_target, dest_mod)]; [mod_dest] is the download. *)
Definition replace_exe (nt : bool) (mod_dest dest_mod : string) : M Fs.world unit :=
  let tmp_target := dest_mod +:+ ".new" in
  try_except
    (e ← Fs.exists_ tmp_target;
     when_ e (Fs.remove tmp_target))
    (fun _ => ret tt);;
  Fs.copy2 mod_dest tmp_target;;
  e ← Fs.exists_ dest_mod;
  when_ e (try_except (Fs.remove dest_mod) (fun _ => ret tt));;
  Fs.move nt tmp_target dest_mod.

End OldUpdater11.

(** ** The swap of the installer in modmanager.py *)

Module UpdateInstaller.

Definition EXPECTED_UPDATE_EXE_NAME : string := "update.exe".

Definition local_update_new (base_dir : string) : string :=
  Path.join base_dir "update_new.exe".
Definition local_update (base_dir : string) : string :=
  Path.join base_dir EXPECTED_UPDATE_EXE_NAME.
Definition update_old (base_dir : string) : string :=
  Path.join base_dir "update_old.exe".

(** [do_swap] of [ModManager.update_installer_exe]; the messages it
    prints are not modelled. *)
Definition do_swap (nt : bool) (base_dir : string) : M Fs.world unit :=
  try_except
    (e ← Fs.exists_ (local_update base_dir);
     when_ e
       (try_except (Fs.remove (local_update base_dir))
          (fun _ =>
             try_except
               (Fs.rename nt (local_update base_dir) (update_old base_dir))
               (fun _ => ret tt)));;
     e' ← Fs.exists_ (local_update_new base_dir);
     when_ e' (Fs.rename nt (local_update_new base_dir) (local_update base_dir)))
    (fun _ => ret tt).

End UpdateInstaller.

(** * Properties *)

(** ** Strings *)

Section StringFacts.

Lemma app_cons (c : ascii) (a b : string) :
  String c a +:+ b = String c (a +:+ b).
Proof. reflexivity. Qed.

Lemma app_nil (b : string) : EmptyString +:+ b = b.
Proof. reflexivity. Qed.

Lemma app_empty_r (s : string) : s +:+ EmptyString = s.
Proof. induction s as [|c s IH]; [done | by rewrite app_cons, IH]. Qed.

Lemma app_assoc' (a b c : string) : (a +:+ b) +:+ c = a +:+ b +:+ c.
Proof. induction a as [|x a IH]; [done | by rewrite !app_cons, IH]. Qed.

Lemma length_app (a b : string) :
  String.length (a +:+ b) = String.length a + String.length b.
Proof. induction a as [|x a IH]; [done | by rewrite app_cons; simpl; rewrite IH]. Qed.

Lemma startswith_app (p s : string) : PyStr.startswith p (p +:+ s) = true.
Proof.
  induction p as [|c p IH]; [done|]. rewrite app_cons. simpl.
  destruct (decide (c = c)); [exact IH | congruence].
Qed.

Lemma drop_app (p s : string) : PyStr.drop (String.length p) (p +:+ s) = s.
Proof. induction p as [|c p IH]; [by destruct s | rewrite app_cons; exact IH]. Qed.

Lemma startswith_drop (p s : string) :
  PyStr.startswith p s = true -> p +:+ PyStr.drop (String.length p) s = s.
Proof.
  revert s. induction p as [|c p IH]; intros s H; simpl in *.
  - by destruct s.
  - destruct s as [|b s]; [discriminate|].
    destruct (decide (c = b)) as [->|]; [|discriminate].
    by rewrite app_cons, (IH s H).
Qed.

(** Once the count is used up the scan copies what it does not skip. *)
Lemma replace_go_exhausted (old new : string) (k : nat) (s : string) :
  PyStr.replace_go old new k (Some 0) s = PyStr.drop k s.
Proof.
  revert k. induction s as [|c s IH]; intros k; simpl.
  - by destruct k.
  - destruct k as [|k]; simpl; [|apply IH].
    rewrite IH. by destruct s.
Qed.

(** [s.replace(old, "", 1)] on a string that starts with [old]. *)
Lemma replace_first_prefix (old s : string) :
  old <> EmptyString -> PyStr.startswith old s = true ->
  PyStr.replace old EmptyString (Some 1) s = PyStr.drop (String.length old) s.
Proof.
  intros Hne Hpre. destruct old as [|a old]; [done|].
  unfold PyStr.replace. destruct s as [|c s]; [discriminate|].
  cbn [PyStr.replace_go PyStr.count_left andb]. rewrite Hpre.
  cbn [PyStr.dec_count Nat.pred String.length]. rewrite replace_go_exhausted.
  by rewrite app_nil.
Qed.

Lemma lstrip_spec (s : string) :
  exists a, s = a +:+ PyStr.lstrip s /\ PyStr.all_space a = true /\
            PyStr.starts_clean (PyStr.lstrip s) = true.
Proof.
  induction s as [|c s (a & Ha & Hsp & Hcl)]; simpl.
  - by exists EmptyString.
  - destruct (PyStr.isspace c) eqn:Hc.
    + exists (String c a). rewrite app_cons. simpl. rewrite Hc, Hsp. by rewrite <- Ha.
    + exists EmptyString. simpl. by rewrite Hc.
Qed.

Lemma rstrip_spec (s : string) :
  exists b, s = PyStr.rstrip s +:+ b /\ PyStr.all_space b = true /\
            PyStr.ends_clean (PyStr.rstrip s) = true.
Proof.
  induction s as [|c s (b & Hb & Hsp & Hcl)]; simpl.
  - by exists EmptyString.
  - destruct (PyStr.rstrip s) as [|d r] eqn:Hr.
    + destruct (PyStr.isspace c) eqn:Hc.
      * exists (String c b). rewrite app_nil in *. subst b. simpl.
        by rewrite Hc, Hsp.
      * exists b. rewrite app_nil in Hb. subst b. rewrite app_cons, app_nil. simpl.
        by rewrite Hc.
    + exists b. split; [by rewrite app_cons, <- Hb|]. split; [done|].
      simpl in *. exact Hcl.
Qed.

Lemma rstrip_starts_clean (s : string) :
  PyStr.starts_clean s = true -> PyStr.starts_clean (PyStr.rstrip s) = true.
Proof.
  destruct s as [|c s]; simpl; [done|]. intros Hc.
  destruct (PyStr.rstrip s); [|exact Hc].
  destruct (PyStr.isspace c) eqn:E; [discriminate|]. simpl. by rewrite E.
Qed.

(** [s.strip()] removes a run of whitespace at each end and nothing
    else. *)
Lemma strip_spec (s : string) :
  exists a b, s = a +:+ PyStr.strip s +:+ b /\
              PyStr.all_space a = true /\ PyStr.all_space b = true /\
              PyStr.starts_clean (PyStr.strip s) = true /\
              PyStr.ends_clean (PyStr.strip s) = true.
Proof.
  destruct (lstrip_spec s) as (a & Ha & Hsa & Hca).
  destruct (rstrip_spec (PyStr.lstrip s)) as (b & Hb & Hsb & Hcb).
  exists a, b. unfold PyStr.strip. split; [by rewrite <- Hb|].
  auto using rstrip_starts_clean.
Qed.

End StringFacts.

(** ** Paths *)

Section PathFacts.

Lemma split_nonempty (c : ascii) (s : string) :
  exists h t, PyStr.split c s = h :: t.
Proof.
  induction s as [|x s (h & t & IH)]; simpl; [by eauto|].
  destruct (decide (x = c)); [by eauto|]. rewrite IH. eauto.
Qed.

(** Splitting at a separator splits the list of components. *)
Lemma split_app (c : ascii) (a b : string) :
  PyStr.split c (a +:+ String c b) = PyStr.split c a ++ PyStr.split c b.
Proof.
  induction a as [|x a IH].
  - rewrite app_nil. simpl. by destruct (decide (c = c)).
  - rewrite app_cons. simpl. rewrite IH.
    destruct (decide (x = c)); [done|].
    by destruct (split_nonempty c a) as (h & t & ->).
Qed.

Lemma split_no_sep (n : string) :
  Path.no_sep n = true -> PyStr.split Path.sep n = [n].
Proof.
  induction n as [|x n IH]; simpl; [done|].
  destruct (decide (x = Path.sep)); [discriminate|].
  intros H. by rewrite (IH H).
Qed.

Lemma split_parts_no_sep (s x : string) :
  x ∈ PyStr.split Path.sep s -> Path.no_sep x = true.
Proof.
  revert x. induction s as [|c s IH]; intros x; simpl.
  - by intros ->%list_elem_of_singleton.
  - destruct (decide (c = Path.sep)) as [->|Hc].
    + intros [->|Hx]%elem_of_cons; [done | by apply IH].
    + destruct (split_nonempty Path.sep s) as (h & t & E). rewrite E in *.
      intros [->|Hx]%elem_of_cons.
      * simpl. destruct (decide (c = Path.sep)); [done|].
        apply IH. by left.
      * apply IH. by right.
Qed.

Lemma last_elem_of {A} (l : list A) (d : A) : l <> [] -> List.last l d ∈ l.
Proof.
  induction l as [|x l IH]; [done|]. intros _.
  destruct l as [|y l]; [by left|].
  right. by apply IH.
Qed.

Lemma basename_no_sep (p : string) : Path.no_sep (Path.basename p) = true.
Proof.
  unfold Path.basename. apply (split_parts_no_sep p).
  destruct (split_nonempty Path.sep p) as (h & t & ->).
  by apply last_elem_of.
Qed.

Lemma basename_after_sep (a n : string) :
  Path.no_sep n = true -> Path.basename (a +:+ Path.sep_str +:+ n) = n.
Proof.
  intros Hn. unfold Path.basename, Path.sep_str. rewrite app_cons, app_nil.
  rewrite split_app, (split_no_sep n Hn). apply last_last.
Qed.

Lemma endswith_app (p s : string) :
  PyStr.endswith p s = true -> exists a, s = a +:+ p.
Proof.
  induction s as [|c s IH]; simpl.
  - rewrite orb_false_r. intros <-%bool_decide_eq_true. by exists EmptyString.
  - intros [E%bool_decide_eq_true|H]%orb_true_iff.
    + exists EmptyString. by rewrite app_nil.
    + destruct (IH H) as (a & ->). by exists (String c a).
Qed.

Lemma no_sep_not_absolute (n : string) :
  Path.no_sep n = true -> PyStr.startswith Path.sep_str n = false.
Proof.
  destruct n as [|c n]; simpl; [done|].
  destruct (decide (c = Path.sep)) as [->|]; [discriminate|].
  by destruct (decide (Path.sep = c)).
Qed.

(** The last component of a joined path is the joined name. *)
Lemma basename_join (d n : string) :
  Path.no_sep n = true -> Path.basename (Path.join d n) = n.
Proof.
  intros Hn. unfold Path.join. rewrite (no_sep_not_absolute n Hn).
  destruct (bool_decide (d = EmptyString)) eqn:Hd; simpl.
  - apply bool_decide_eq_true in Hd as ->. rewrite app_nil.
    unfold Path.basename. by rewrite (split_no_sep n Hn).
  - destruct (PyStr.endswith Path.sep_str d) eqn:He.
    + destruct (endswith_app _ _ He) as (a & ->).
      rewrite app_assoc'. by apply basename_after_sep.
    + by apply basename_after_sep.
Qed.

Lemma join_nonempty (d n : string) : n <> EmptyString -> Path.join d n <> EmptyString.
Proof.
  intros Hn. unfold Path.join.
  destruct (PyStr.startswith Path.sep_str n); [done|].
  destruct (_ || _); intros E.
  - destruct d; [by rewrite app_nil in E | by rewrite app_cons in E].
  - destruct d; [by rewrite app_nil in E | by rewrite app_cons in E].
Qed.

(** Joining two different relative names to one directory gives two
    different paths. *)
Lemma join_inj (d a b : string) :
  PyStr.startswith Path.sep_str a = false ->
  PyStr.startswith Path.sep_str b = false ->
  Path.join d a = Path.join d b -> a = b.
Proof.
  unfold Path.join. intros -> ->. destruct (_ || _); intros E.
  - by apply (inj (String.app d)) in E.
  - apply (inj (String.app d)) in E. by apply (inj (String.app Path.sep_str)) in E.
Qed.

End PathFacts.

(** ** Enabling and disabling a mod folder *)

Section Toggle.
Import ModManager.

Lemma no_sep_drop (k : nat) (s : string) :
  Path.no_sep s = true -> Path.no_sep (PyStr.drop k s) = true.
Proof.
  revert k. induction s as [|c s IH]; intros [|k]; simpl; try done.
  destruct (decide (c = Path.sep)); [discriminate | apply IH].
Qed.

Lemma toggle_name_enabled (N : string) :
  PyStr.startswith "DISABLED_" N = false -> toggle_name N = "DISABLED_" +:+ N.
Proof. unfold toggle_name. by intros ->. Qed.

Lemma toggle_name_disabled (N : string) :
  PyStr.startswith "DISABLED_" N = true ->
  toggle_name N = PyStr.drop 9 N /\ "DISABLED_" +:+ toggle_name N = N.
Proof.
  intros H. unfold toggle_name. rewrite H.
  rewrite (replace_first_prefix "DISABLED_" N) by done.
  split; [done|]. by apply (startswith_drop "DISABLED_" N).
Qed.

Lemma toggle_name_twice (N : string) :
  PyStr.startswith "DISABLED_" N = false -> toggle_name (toggle_name N) = N.
Proof.
  intros H. rewrite (toggle_name_enabled N H).
  destruct (toggle_name_disabled ("DISABLED_" +:+ N)) as [-> _].
  - apply startswith_app.
  - apply (drop_app "DISABLED_" N).
Qed.

Lemma toggle_name_no_sep (N : string) :
  Path.no_sep N = true -> Path.no_sep (toggle_name N) = true.
Proof.
  intros H. destruct (PyStr.startswith "DISABLED_" N) eqn:E.
  - destruct (toggle_name_disabled N E) as [-> _]. by apply no_sep_drop.
  - by rewrite (toggle_name_enabled N E).
Qed.

Lemma toggle_name_nonempty (N : string) :
  PyStr.startswith "DISABLED_" N = false -> toggle_name N <> EmptyString.
Proof. intros H. by rewrite (toggle_name_enabled N H). Qed.

Lemma unsplit (s : string) :
  foldr (fun x acc => x +:+ Path.sep_str +:+ acc) EmptyString (PyStr.split Path.sep s)
  = s +:+ Path.sep_str.
Proof.
  induction s as [|c s IH]; [done|]. cbn [PyStr.split].
  destruct (decide (c = Path.sep)) as [->|Hc].
  - cbn [foldr]. rewrite IH. by rewrite app_nil, !app_cons.
  - destruct (split_nonempty Path.sep s) as (h & t & E). rewrite E in *.
    cbn [foldr] in *. rewrite !app_cons. by rewrite IH.
Qed.

Lemma trailing_sep_stripped (d : string) :
  d <> EmptyString -> PyStr.endswith Path.sep_str d = false ->
  Path.all_sep (d +:+ Path.sep_str) = false /\
  Path.rstrip_sep (d +:+ Path.sep_str) = d.
Proof.
  induction d as [|c d IH]; [done|]. intros _ He.
  cbn [PyStr.endswith] in He. apply orb_false_iff in He as [Hc He].
  rewrite app_cons. cbn [Path.all_sep Path.rstrip_sep].
  destruct d as [|c' d].
  - rewrite app_nil. apply bool_decide_eq_false in Hc.
    assert (c <> Path.sep) by (intros ->; by apply Hc).
    simpl. by rewrite !decide_False.
  - destruct IH as [Ha Hr]; [done|done|]. rewrite Ha, Hr.
    split; [by destruct (decide (c = Path.sep))|done].
Qed.

(** The directory of an entry is the folder it was joined to, for a
    folder written without a trailing separator. *)
Lemma dirname_join (d n : string) :
  d <> EmptyString -> PyStr.endswith Path.sep_str d = false ->
  Path.no_sep n = true ->
  Path.dirname (Path.join d n) = d.
Proof.
  intros Hd He Hn. unfold Path.join, Path.dirname, Path.head_raw.
  assert (Hs : PyStr.startswith Path.sep_str n = false).
  { destruct n as [|c n]; [done|]. unfold Path.sep_str, Path.sep.
    cbn [PyStr.startswith]. destruct (decide ("/"%char = c)) as [<-|]; [|done].
    by cbn in Hn. }
  rewrite Hs, He, orb_false_r, bool_decide_eq_false_2 by done.
  change (d +:+ Path.sep_str +:+ n) with (d +:+ String Path.sep n).
  rewrite split_app, (split_no_sep n Hn), removelast_last, unsplit.
  destruct (trailing_sep_stripped d Hd He) as [-> ->]. done.
Qed.

Lemma fmap_fixed {A} (f : A -> A) (l : list A) :
  Forall (fun x => f x = x) l -> f <$> l = l.
Proof. induction 1 as [|x l Hx _ IH]; [done|]. cbn. by rewrite Hx, IH. Qed.

(** The paths of the entries [load_mods] makes are the folders of the
    item. *)
Lemma mod_list_paths (cf : string) (fs : gset string) :
  Path.join cf <$> listdir cf fs
  = elements (filter (fun p => Is_true (in_folder cf p)) fs).
Proof.
  unfold listdir. rewrite <- list_fmap_compose. apply fmap_fixed.
  apply Forall_forall. intros p Hp%elem_of_elements%elem_of_filter.
  destruct Hp as [Hp _]. unfold in_folder in Hp.
  apply Is_true_true, andb_true_iff in Hp as [Hp%bool_decide_eq_true _].
  simpl. by rewrite <- Hp.
Qed.

Lemma elem_of_mod_list (cf : string) (fs : gset string) (p : string) :
  p ∈ Path.join cf <$> listdir cf fs <-> p ∈ fs /\ in_folder cf p = true.
Proof.
  rewrite mod_list_paths, elem_of_elements, elem_of_filter.
  rewrite Is_true_true. tauto.
Qed.

Lemma in_folder_join (cf n : string) :
  Path.no_sep n = true -> n <> EmptyString -> in_folder cf (Path.join cf n) = true.
Proof.
  intros Hn Hne. unfold in_folder. rewrite (basename_join cf n Hn).
  rewrite bool_decide_eq_true_2 by done. by rewrite bool_decide_eq_false_2.
Qed.

(** One call on an existing selection whose rename the system accepts:
    the folder is renamed, the list reloaded and the selection reset. *)
Lemma toggle_step (st : mods) (p : string) :
  selected_mod_path st = Some p -> p <> EmptyString -> p ∈ folders st ->
  let p' := Path.join (Path.dirname p) (toggle_name (Path.basename p)) in
  toggle_selected_mod None st =
    (Returned tt,
     {| selected_item := selected_item st;
        selected_mod_path := None;
        mod_list :=
          match selected_item st with
          | None => []
          | Some cf => Path.join cf <$> listdir cf ({[p']} ∪ (folders st ∖ {[p]}))
          end;
        folders := {[p']} ∪ (folders st ∖ {[p]}) |}).
Proof.
  intros Hsel Hne Hin. unfold toggle_selected_mod.
  unfold mbind, M_bind, bind, get. rewrite Hsel.
  destruct p as [|c p]; [done|].
  rewrite (bool_decide_eq_true_2 _ Hin). reflexivity.
Qed.

(** Without a selection, or with a selection that no longer exists, the
    call returns at once. *)
Lemma toggle_idle (e : option exn) (st : mods) :
  selected_mod_path st = None -> toggle_selected_mod e st = (Returned tt, st).
Proof. intros H. unfold toggle_selected_mod, mbind, M_bind, bind, get. by rewrite H. Qed.

End Toggle.

(** ** The version comparator *)

Section Normalize.
Import ModManager.

(** C8, as stated, fails on the empty tag: it is not returned
    unchanged, it becomes [None]. *)
Lemma normalize_empty_tag_changed :
  semver_normalize (Some EmptyString) <> Some EmptyString.
Proof. discriminate. Qed.

Lemma normalize_strips (tag : string) :
  tag <> EmptyString ->
  semver_normalize (Some tag) = Some (strip_one_v (PyStr.strip tag)).
Proof.
  intros Hne. destruct tag as [|c tag]; [done|].
  unfold semver_normalize. set (t := PyStr.strip (String c tag)).
  destruct t as [|x t]; [done|]. simpl.
  destruct (decide ("v"%char = x)) as [<-|Hv]; [done|].
  destruct (decide ("V"%char = x)) as [<-|HV]; [done|].
  rewrite !bool_decide_eq_false_2 by congruence. done.
Qed.

(** C8 (amended): [normalize] gives [None] on an absent and on an empty
    tag; on any other tag it removes the whitespace around it and then
    exactly one leading [v] or [V]. In particular
    [normalize("v1.2.3") = "1.2.3"], [normalize("1.2.3") = "1.2.3"] and
    [normalize(None) = None]. *)
Theorem normalize_spec :
  semver_normalize None = None /\
  semver_normalize (Some EmptyString) = None /\
  (forall tag, tag <> EmptyString ->
     exists a core b,
       tag = a +:+ core +:+ b /\
       PyStr.all_space a = true /\ PyStr.all_space b = true /\
       PyStr.starts_clean core = true /\ PyStr.ends_clean core = true /\
       semver_normalize (Some tag) = Some (strip_one_v core)) /\
  semver_normalize (Some "v1.2.3") = Some "1.2.3" /\
  semver_normalize (Some "1.2.3") = Some "1.2.3".
Proof.
  repeat split; try reflexivity.
  intros tag Hne. destruct (strip_spec tag) as (a & b & E & Ha & Hb & Hs & He).
  exists a, (PyStr.strip tag), b. by rewrite (normalize_strips tag Hne).
Qed.

Lemma normalize_spec_witness :
  exists a core b,
    " V2.0 " = a +:+ core +:+ b /\
    PyStr.all_space a = true /\ PyStr.all_space b = true /\
    PyStr.starts_clean core = true /\ PyStr.ends_clean core = true /\
    semver_normalize (Some " V2.0 ") = Some (strip_one_v core).
Proof.
  apply (proj1 (proj2 (proj2 normalize_spec)) " V2.0 "). discriminate.
Defined.

End Normalize.

Section ToggleRoundTrip.
Import ModManager.

Lemma no_sep_relative (n : string) :
  Path.no_sep n = true -> PyStr.startswith Path.sep_str n = false.
Proof.
  intros Hn. destruct n as [|c n]; [done|]. unfold Path.sep_str, Path.sep.
  cbn [PyStr.startswith]. destruct (decide ("/"%char = c)) as [<-|]; [|done].
  by cbn in Hn.
Qed.

(** An accepted toggle of the selected folder [cf/N]: what the window
    and the folders are afterwards. *)
Lemma toggle_entry (st : mods) (cf N : string) :
  selected_item st = Some cf ->
  cf <> EmptyString -> PyStr.endswith Path.sep_str cf = false ->
  Path.no_sep N = true -> N <> EmptyString ->
  selected_mod_path st = Some (Path.join cf N) ->
  Path.join cf N ∈ folders st ->
  toggle_selected_mod None st =
    (Returned tt,
     {| selected_item := Some cf;
        selected_mod_path := None;
        mod_list :=
          Path.join cf <$>
            listdir cf ({[Path.join cf (toggle_name N)]}
                        ∪ (folders st ∖ {[Path.join cf N]}));
        folders := {[Path.join cf (toggle_name N)]}
                   ∪ (folders st ∖ {[Path.join cf N]}) |}).
Proof.
  intros Hsi Hcf He Hn Hne Hsel Hin.
  rewrite (toggle_step st (Path.join cf N) Hsel (join_nonempty cf N Hne) Hin).
  cbv zeta. by rewrite Hsi, (dirname_join cf N Hcf He Hn), (basename_join cf N Hn).
Qed.

(** C10: on a folder name [N] that does not begin with [DISABLED_] one
    toggle gives [DISABLED_ + N] and a second one gives [N] back; on a
    name that begins with [DISABLED_] one toggle removes exactly that
    first prefix. For the folders: an accepted toggle of the selected
    folder [N] of an item renames it to [DISABLED_ + N] (the folder [N]
    is gone), reloads the list and resets the selection, so that
    toggling again at once does nothing; once the renamed folder is
    selected in the reloaded list, a second toggle restores the folders
    exactly as they were. *)
Theorem toggle_round_trip :
  (forall N, PyStr.startswith "DISABLED_" N = false ->
     toggle_name N = "DISABLED_" +:+ N /\ toggle_name (toggle_name N) = N) /\
  (forall N, PyStr.startswith "DISABLED_" N = true ->
     "DISABLED_" +:+ toggle_name N = N) /\
  (forall st cf N,
     selected_item st = Some cf ->
     cf <> EmptyString -> PyStr.endswith Path.sep_str cf = false ->
     Path.no_sep N = true -> N <> EmptyString ->
     PyStr.startswith "DISABLED_" N = false ->
     selected_mod_path st = Some (Path.join cf N) ->
     Path.join cf N ∈ folders st ->
     Path.join cf ("DISABLED_" +:+ N) ∉ folders st ->
     exists st1,
       toggle_selected_mod None st = (Returned tt, st1) /\
       folders st1 = {[Path.join cf ("DISABLED_" +:+ N)]}
                     ∪ (folders st ∖ {[Path.join cf N]}) /\
       (Path.join cf N ∉ folders st1) /\
       selected_mod_path st1 = None /\
       toggle_selected_mod None st1 = (Returned tt, st1) /\
       (exists i, mod_list st1 !! i = Some (Path.join cf ("DISABLED_" +:+ N))) /\
       (forall i, mod_list st1 !! i = Some (Path.join cf ("DISABLED_" +:+ N)) ->
          exists st2,
            (select_mod i;; toggle_selected_mod None) st1 = (Returned tt, st2) /\
            folders st2 = folders st /\
            Path.join cf N ∈ mod_list st2 /\
            selected_mod_path st2 = None)).
Proof.
  split; [|split].
  - intros N H. split; [by apply toggle_name_enabled | by apply toggle_name_twice].
  - intros N H. by apply toggle_name_disabled.
  - intros st cf N Hsi Hcf He Hn Hne Hen Hsel Hin Hnot.
    pose proof (toggle_name_enabled N Hen) as Ht.
    pose proof (toggle_name_no_sep N Hn) as Hn1. rewrite Ht in Hn1.
    assert (Hne1 : "DISABLED_" +:+ N <> EmptyString) by done.
    assert (Hdiff : Path.join cf N <> Path.join cf ("DISABLED_" +:+ N)).
    { intros E. apply join_inj in E; [|by apply no_sep_relative|by apply no_sep_relative].
      pose proof (startswith_app "DISABLED_" N) as Hs. rewrite <- E in Hs. congruence. }
    set (p := Path.join cf N) in *. set (p1 := Path.join cf ("DISABLED_" +:+ N)) in *.
    eexists. split.
    { rewrite (toggle_entry st cf N Hsi Hcf He Hn Hne Hsel Hin), Ht. reflexivity. }
    cbn [folders selected_mod_path mod_list selected_item]. fold p p1.
    split; [done|]. split; [set_solver|]. split; [done|].
    split; [by apply toggle_idle|].
    assert (Hlist : p1 ∈ Path.join cf <$> listdir cf ({[p1]} ∪ (folders st ∖ {[p]}))).
    { apply elem_of_mod_list. split; [set_solver|]. by apply in_folder_join. }
    split; [by apply list_elem_of_lookup_1|].
    intros i Hi. eexists. split.
    { unfold mbind, M_bind, bind, select_mod, modify.
      cbn [mod_list]. rewrite Hi.
      rewrite (toggle_entry _ cf ("DISABLED_" +:+ N)); [|done..|set_solver].
      replace (toggle_name ("DISABLED_" +:+ N)) with N
        by (by rewrite <- Ht, (toggle_name_twice N Hen)).
      reflexivity. }
    cbn [folders selected_mod_path mod_list]. fold p p1.
    assert (Hf : {[p]} ∪ (({[p1]} ∪ (folders st ∖ {[p]})) ∖ {[p1]}) = folders st).
    { apply set_eq. intros x. destruct (decide (x = p)) as [->|]; set_solver. }
    split; [exact Hf|]. split; [|done].
    rewrite Hf. apply elem_of_mod_list. split; [done|]. by apply in_folder_join.
Qed.

Lemma toggle_round_trip_witness :
  (toggle_name "ModA" = "DISABLED_ModA" /\ toggle_name (toggle_name "ModA") = "ModA") /\
  "DISABLED_" +:+ toggle_name "DISABLED_DISABLED_x" = "DISABLED_DISABLED_x" /\
  let st := {| selected_item := Some "/mods/gi/characters/amber";
               selected_mod_path := Some "/mods/gi/characters/amber/ModA";
               mod_list := ["/mods/gi/characters/amber/ModA"];
               folders := {["/mods/gi/characters/amber/ModA"]} |} in
  let cf := "/mods/gi/characters/amber" in
  exists st1,
    toggle_selected_mod None st = (Returned tt, st1) /\
    folders st1 = {[Path.join cf ("DISABLED_" +:+ "ModA")]}
                  ∪ (folders st ∖ {[Path.join cf "ModA"]}) /\
    (Path.join cf "ModA" ∉ folders st1) /\
    selected_mod_path st1 = None /\
    toggle_selected_mod None st1 = (Returned tt, st1) /\
    (exists i, mod_list st1 !! i = Some (Path.join cf ("DISABLED_" +:+ "ModA"))) /\
    (forall i, mod_list st1 !! i = Some (Path.join cf ("DISABLED_" +:+ "ModA")) ->
       exists st2,
         (select_mod i;; toggle_selected_mod None) st1 = (Returned tt, st2) /\
         folders st2 = folders st /\
         Path.join cf "ModA" ∈ mod_list st2 /\
         selected_mod_path st2 = None).
Proof.
  split; [|split].
  - apply (proj1 toggle_round_trip "ModA"). reflexivity.
  - apply (proj1 (proj2 toggle_round_trip) "DISABLED_DISABLED_x"). reflexivity.
  - intros st cf.
    apply (proj2 (proj2 toggle_round_trip) st cf "ModA").
    + reflexivity.
    + discriminate.
    + reflexivity.
    + reflexivity.
    + discriminate.
    + reflexivity.
    + reflexivity.
    + vm_compute. reflexivity.
    + intros H. vm_compute in H. discriminate.
Defined.

End ToggleRoundTrip.

Section Comparison.
Import ModManager.

Lemma zeros_not_gt (b : list N) :
  list_gt (replicate (length b) 0%N) b = false.
Proof.
  induction b as [|y b IH]; [done|]. cbn [length replicate list_gt].
  destruct (N.eqb_spec 0 y); [done|]. apply N.ltb_ge. lia.
Qed.

Lemma pad_cons (n : nat) (x : N) (l : list N) : pad (S n) (x :: l) = x :: pad n l.
Proof. reflexivity. Qed.

Lemma pad_nil (n : nat) : pad n [] = replicate n 0%N.
Proof. unfold pad. simpl. by rewrite Nat.sub_0_r. Qed.

Lemma pad_full (l : list N) : pad (length l) l = l.
Proof. unfold pad. by rewrite Nat.sub_diag, app_nil_r. Qed.

(** The padded comparison is the recursive one. *)
Lemma padded_gt_rec (a b : list N) : padded_gt a b = gt_padded a b.
Proof.
  unfold padded_gt. revert b. induction a as [|x a IH]; intros [|y b].
  - reflexivity.
  - change (Nat.max (length []) (length (y :: b))) with (length (y :: b)).
    rewrite pad_nil, pad_full. apply zeros_not_gt.
  - cbn [length]. rewrite Nat.max_0_r, pad_cons, pad_nil. cbn [replicate list_gt gt_padded].
    specialize (IH []). cbn [length] in IH. rewrite Nat.max_0_r, pad_nil in IH.
    rewrite IH. destruct (N.eqb_spec x 0); [done|]. apply N.ltb_lt. lia.
  - cbn [length]. change (Nat.max (S (length a)) (S (length b)))
      with (S (Nat.max (length a) (length b))).
    rewrite !pad_cons. cbn [list_gt gt_padded]. by rewrite IH.
Qed.

Lemma drop_trailing_zeros_nil_gt (a : list N) :
  list_gt (drop_trailing_zeros a) [] = gt_padded a [].
Proof.
  induction a as [|x a IH]; [done|]. cbn [drop_trailing_zeros gt_padded].
  destruct (drop_trailing_zeros a) as [|r0 r].
  - rewrite <- IH. by destruct (x =? 0)%N.
  - rewrite <- IH. by destruct (x =? 0)%N.
Qed.

(** Comparing the releases without their trailing zeros as Python
    compares tuples is the padded comparison. *)
Lemma drop_trailing_zeros_gt (a b : list N) :
  list_gt (drop_trailing_zeros a) (drop_trailing_zeros b) = padded_gt a b.
Proof.
  rewrite padded_gt_rec. revert b. induction a as [|x a IH]; intros [|y b].
  - reflexivity.
  - reflexivity.
  - apply (drop_trailing_zeros_nil_gt (x :: a)).
  - cbn [drop_trailing_zeros gt_padded]. specialize (IH b).
    destruct (drop_trailing_zeros a) as [|r0 r], (drop_trailing_zeros b) as [|s0 s];
      rewrite <- IH; clear IH;
      destruct (N.eqb_spec x 0), (N.eqb_spec y 0), (N.eqb_spec x y);
      subst; cbn [list_gt]; rewrite ?N.eqb_refl; try done; try lia;
      repeat match goal with
             | |- context [(?u =? ?v)%N] => destruct (N.eqb_spec u v); try lia
             end; try done;
      try (symmetry; apply N.ltb_lt; lia); try (symmetry; apply N.ltb_ge; lia);
      try (apply N.ltb_lt; lia); try (apply N.ltb_ge; lia).
Qed.

Lemma isdecimal_isdigit (x : string) :
  PyStr.isdecimal x = true -> PyStr.isdigit x = true.
Proof.
  destruct x as [|c x]; [done|]. unfold PyStr.isdecimal, PyStr.isdigit.
  generalize (String c x). clear. intros s. induction s as [|c s IH]; [done|].
  cbn [PyStr.all_digits PyStr.all_py_digits]. intros [Hc Hs]%andb_true_iff.
  rewrite (IH Hs), andb_true_r. unfold PyStr.is_py_digit_char. by rewrite Hc.
Qed.

Lemma isdecimal_all_digits (x : string) :
  PyStr.isdecimal x = true -> PyStr.all_digits x = true.
Proof. by destruct x. Qed.

Lemma digit_components_dotted (s : string) :
  is_dotted_numeric s = true -> digit_components s = PyStr.split "." s.
Proof.
  unfold is_dotted_numeric, digit_components. generalize (PyStr.split "." s).
  intros l. induction l as [|x l IH]; [done|]. cbn [forallb].
  intros [Hx Hl]%andb_true_iff. rewrite filter_cons.
  rewrite decide_True by (by rewrite (isdecimal_isdigit x Hx)). by rewrite IH.
Qed.

Lemma mapM_int_of_digits (l : list string) :
  mapM PyStr.int_of_digits l =
    if forallb (fun x => PyStr.all_digits x
                         && (String.length x <=? PyStr.int_max_str_digits)) l
    then Some (PyStr.int <$> l) else None.
Proof.
  induction l as [|x l IH]; [done|]. cbn [mapM forallb fmap list_fmap].
  rewrite IH. unfold PyStr.int_of_digits.
  destruct (PyStr.all_digits x && (String.length x <=? PyStr.int_max_str_digits));
    [|done].
  by destruct (forallb _ l).
Qed.

Lemma int_parts_readable (s : string) :
  int_parts (Some s) =
    if int_readable s then Some (PyStr.int <$> digit_components s) else None.
Proof. apply mapM_int_of_digits. Qed.

Lemma int_readable_dotted (s : string) :
  is_dotted_numeric s = true -> int_readable s = convertible s.
Proof.
  intros Hs. unfold int_readable, convertible. rewrite (digit_components_dotted s Hs).
  unfold is_dotted_numeric in Hs. revert Hs. generalize (PyStr.split "." s).
  intros l. induction l as [|x l IH]; [done|]. cbn [forallb].
  intros [Hx Hl]%andb_true_iff. by rewrite (isdecimal_all_digits x Hx), (IH Hl).
Qed.

(** On dot-separated numbers the answer of [packaging] is the padded
    comparison; with a component [int] refuses it is the inequality of
    the strings. *)
Lemma newer_on_dotted `{P : Packaging} (installed latest : string) :
  is_dotted_numeric installed = true -> is_dotted_numeric latest = true ->
  is_version_newer (Some installed) (Some latest)
  = if convertible installed && convertible latest
    then padded_gt (release_of latest) (release_of installed)
    else bool_decide (latest <> installed).
Proof.
  intros Hi Hl.
  pose proof (pkg_parse_release latest Hl) as Pl.
  pose proof (pkg_parse_release installed Hi) as Pi.
  unfold is_version_newer, parse.
  assert (Hnaive : convertible installed && convertible latest = false ->
    match int_parts (Some installed), int_parts (Some latest) with
    | Some i_parts, Some l_parts => list_gt l_parts i_parts
    | _, _ => differs_and_present (Some installed) (Some latest)
    end = bool_decide (latest <> installed)).
  { intros Hc. rewrite !int_parts_readable, !int_readable_dotted by done.
    assert (D : differs_and_present (Some installed) (Some latest)
                = bool_decide (latest <> installed)).
    { unfold differs_and_present. rewrite andb_true_r.
      apply bool_decide_ext. split; intros Hne E; apply Hne; congruence. }
    destruct (convertible installed), (convertible latest); done. }
  destruct (convertible installed) eqn:Ci, (convertible latest) eqn:Cl; cbn [andb].
  - destruct Pl as (vl & -> & Rl), Pi as (vi & -> & Ri).
    rewrite (pkg_gt_release vl vi _ _ Rl Ri). apply drop_trailing_zeros_gt.
  - rewrite Pl. by apply Hnaive.
  - rewrite Pi. destruct (pkg_parse latest); by apply Hnaive.
  - rewrite Pl. by apply Hnaive.
Qed.

(** C3, as stated, fails: a component of 4301 digits is more than
    [int] converts, in [packaging] and in the naive comparison alike, and
    the answer is the inequality of the strings: 1 is "newer" than the
    number written with 4301 nines. *)
Lemma long_component_by_inequality :
  ~ (forall (P : Packaging) installed latest,
       is_dotted_numeric installed = true -> is_dotted_numeric latest = true ->
       is_version_newer (Some installed) (Some latest)
       = padded_gt (release_of latest) (release_of installed)).
Proof.
  intros H. specialize (H release_only (PyStr.mul "9" 4301) "1").
  assert (E : is_dotted_numeric (PyStr.mul "9" 4301) = true) by (vm_compute; reflexivity).
  specialize (H E eq_refl). vm_compute in H. discriminate.
Qed.

(** C3 (amended): on version strings made of dot-separated numbers of
    at most 4300 digits each, [isNewer] compares the numbers
    lexicographically, the shorter sequence padded with zeros on the
    right; [isNewer("1.0.9", "1.0.10")] holds, [isNewer("1.0.10",
    "1.0.9")] and [isNewer("1.2", "1.2.0")] do not. With a longer
    component on either side the answer is whether the strings differ. *)
Theorem is_version_newer_dotted `{P : Packaging} :
  (forall installed latest,
     is_dotted_numeric installed = true -> is_dotted_numeric latest = true ->
     is_version_newer (Some installed) (Some latest)
     = if convertible installed && convertible latest
       then padded_gt (release_of latest) (release_of installed)
       else bool_decide (latest <> installed)) /\
  is_version_newer (Some "1.0.9") (Some "1.0.10") = true /\
  is_version_newer (Some "1.0.10") (Some "1.0.9") = false /\
  is_version_newer (Some "1.2") (Some "1.2.0") = false.
Proof.
  split; [apply @newer_on_dotted|].
  repeat split; rewrite newer_on_dotted by reflexivity; reflexivity.
Qed.

Lemma is_version_newer_dotted_witness :
  @is_version_newer release_only (Some "2.9") (Some "2.10.0")
  = if convertible "2.9" && convertible "2.10.0"
    then padded_gt (release_of "2.10.0") (release_of "2.9")
    else bool_decide ("2.10.0" <> "2.9").
Proof.
  apply (proj1 (@is_version_newer_dotted release_only) "2.9" "2.10.0");
    vm_compute; reflexivity.
Defined.

(** C4, as stated, fails: when the parse of a side fails the naive
    numeric comparison decides first, and two tags without a numeric
    component are not "newer" although they differ. *)
Lemma fallback_not_inequality :
  ~ (forall (P : Packaging) installed latest,
       parse installed = None \/ parse latest = None ->
       is_version_newer installed latest = newer_by_inequality installed latest).
Proof.
  intros H. specialize (H release_only (Some "abc") (Some "xyz") (or_introl eq_refl)).
  vm_compute in H. discriminate.
Qed.

(** C4 (amended): when [packaging] rejects a side and both sides are
    strings whose all-digit components [int] accepts, the result is
    Python's list comparison of those components, [l_parts > i_parts];
    when that comparison raises too (a side is [None], or [int] refuses
    a component: more than 4300 digits, a superscript digit) the result
    is true exactly when [latest] is not [None] and differs from
    [installed]. *)
Theorem is_version_newer_fallback `{P : Packaging} (installed latest : option string) :
  parse installed = None \/ parse latest = None ->
  match installed, latest with
  | Some i, Some l =>
      if int_readable i && int_readable l
      then is_version_newer installed latest
           = list_gt (PyStr.int <$> digit_components l) (PyStr.int <$> digit_components i)
      else (is_version_newer installed latest = true <-> l <> i)
  | _, _ =>
      (is_version_newer installed latest = true
       <-> latest <> None /\ latest <> installed)
  end.
Proof.
  intros Hfail. unfold is_version_newer.
  assert (E : match parse latest, parse installed with
              | Some l, Some i => pkg_gt l i
              | _, _ =>
                  match int_parts installed, int_parts latest with
                  | Some i_parts, Some l_parts => list_gt l_parts i_parts
                  | _, _ => differs_and_present installed latest
                  end
              end
              = match int_parts installed, int_parts latest with
                | Some i_parts, Some l_parts => list_gt l_parts i_parts
                | _, _ => differs_and_present installed latest
                end).
  { destruct Hfail as [-> | ->]; [by destruct (parse latest) | done]. }
  rewrite E. clear E Hfail.
  destruct installed as [i|], latest as [l|].
  - rewrite !int_parts_readable.
    destruct (int_readable i), (int_readable l); cbn [andb]; [reflexivity| | |];
      unfold differs_and_present;
      rewrite andb_true_iff, !bool_decide_eq_true;
      (split; [intros [H _] E; apply H; congruence
              |intros H; split; [intros E; apply H; congruence | done]]).
  - cbn [int_parts]. destruct (mapM _ _);
      unfold differs_and_present;
      rewrite andb_true_iff, !bool_decide_eq_true; tauto.
  - cbn [int_parts]. unfold differs_and_present.
    rewrite andb_true_iff, !bool_decide_eq_true. tauto.
  - cbn [int_parts]. unfold differs_and_present.
    rewrite andb_true_iff, !bool_decide_eq_true. tauto.
Qed.

Lemma is_version_newer_fallback_witness :
  if int_readable "abc" && int_readable "1.0.x"
  then @is_version_newer release_only (Some "abc") (Some "1.0.x")
       = list_gt (PyStr.int <$> digit_components "1.0.x")
                 (PyStr.int <$> digit_components "abc")
  else (@is_version_newer release_only (Some "abc") (Some "1.0.x") = true
        <-> "1.0.x" <> "abc").
Proof.
  apply (@is_version_newer_fallback release_only (Some "abc") (Some "1.0.x")).
  left. vm_compute. reflexivity.
Defined.

End Comparison.

(** ** The check workflow *)

Section CheckWorkflow.
Import ModManager.

(** C5: when the fetch of the release metadata fails (transport error,
    timeout, error status or a body that does not decode) the check
    ends with the status "Unable to check" and neither the settings in
    memory nor the settings file change: last release tag, version and
    install path are as before. *)
Theorem check_failure_keeps_settings `{P : Packaging}
    (ev : fetch_event) (sv : save_event) (st : app) :
  fetch_fails ev = true ->
  exists st',
    _check_updates_and_update_ui ev sv st = (Returned tt, st') /\
    update_status st' = Some (false, "Unable to check") /\
    settings st' = settings st /\
    settings_file st' = settings_file st.
Proof.
  intros Hf.
  assert (E : fetch_latest_release_info ev = None).
  { destruct ev as [| | |[j|]]; try reflexivity. discriminate. }
  unfold _check_updates_and_update_ui. rewrite E.
  eexists. split; [reflexivity|]. done.
Qed.

Lemma check_failure_keeps_settings_witness :
  exists st',
    @_check_updates_and_update_ui release_only FetchTimeout SaveOk
      {| settings := {["last_release_tag" := JStr "v1.0.8"]};
         settings_file := FileJson {["last_release_tag" := JStr "v1.0.8"]};
         update_status := None |} = (Returned tt, st') /\
    update_status st' = Some (false, "Unable to check") /\
    settings st' = {["last_release_tag" := JStr "v1.0.8"]} /\
    settings_file st' = FileJson {["last_release_tag" := JStr "v1.0.8"]}.
Proof.
  apply (@check_failure_keeps_settings release_only FetchTimeout SaveOk).
  reflexivity.
Defined.

End CheckWorkflow.

(** ** The downloader of modmanager.py *)

Section Downloader.
Import ModManager.

Variable env : download_env.
Variable dest_path : string.

Lemma contained_escape (cb : option callback) (d : nat) (t : option N) :
  contained cb -> escape cb d t = None.
Proof.
  destruct cb as [f|]; [|done]. simpl. intros H.
  destruct (f d t) as [[]|e] eqn:E; [done|]. by rewrite (H _ _ _ E).
Qed.

(** One turn of the loop on a chunk that is written: the chunk is in
    the file and reported, and the loop goes on unless the callback let
    an exception escape its [try]. *)
Lemma read_loop_step (cb : option callback) (total : option N)
    (x : ascii) (chunk : string) (rest : list read_result)
    (n downloaded : nat) (st : dl_state) :
  write_error env n = None ->
  read_loop env dest_path cb total (Chunk (String x chunk) :: rest) n downloaded st
  = match escape cb (downloaded + String.length (String x chunk)) total with
    | Some e =>
        (Raised e, after_chunk dest_path cb total (String x chunk) downloaded st)
    | None =>
        read_loop env dest_path cb total rest (S n)
          (downloaded + String.length (String x chunk))
          (after_chunk dest_path cb total (String x chunk) downloaded st)
    end.
Proof.
  intros Hw. cbn [read_loop]. unfold write_chunk. rewrite Hw.
  destruct cb as [f|]; munfold; unfold after_chunk, escape.
  - unfold call_callback. munfold. destruct (f _ _) as [[]|e]; [done|].
    by destruct (is_exception e).
  - reflexivity.
Qed.

Lemma read_loop_chunk (cb : option callback) (total : option N)
    (x : ascii) (chunk : string) (rest : list read_result)
    (n downloaded : nat) (st : dl_state) :
  contained cb ->
  write_error env n = None ->
  read_loop env dest_path cb total (Chunk (String x chunk) :: rest) n downloaded st
  = read_loop env dest_path cb total rest (S n)
      (downloaded + String.length (String x chunk))
      (after_chunk dest_path cb total (String x chunk) downloaded st).
Proof.
  intros Hcb Hw. rewrite (read_loop_step _ _ _ _ _ _ _ _ Hw).
  by rewrite contained_escape.
Qed.

Lemma read_loop_write_fails (cb : option callback) (total : option N)
    (x : ascii) (chunk : string) (rest : list read_result)
    (n downloaded : nat) (st : dl_state) (e : exn) :
  write_error env n = Some e ->
  read_loop env dest_path cb total (Chunk (String x chunk) :: rest) n downloaded st
  = (Raised e, st).
Proof. intros Hw. cbn [read_loop]. unfold write_chunk. by rewrite Hw. Qed.

(** A loop that returns, whatever the callback: the transfer met no
    error, every delivered byte was appended to the file and every chunk
    reported. *)
Lemma read_loop_returned (cb : option callback) (total : option N)
    (reads : list read_result) (n downloaded : nat) (st st' : dl_state) (c : string) :
  files st !! dest_path = Some c ->
  read_loop env dest_path cb total reads n downloaded st = (Returned tt, st') ->
  transfer_ok (write_error env) reads n = true /\
  files st' = <[dest_path := c +:+ received reads]> (files st) /\
  progress_log st' = progress_log st ++ logged cb (reports total reads downloaded).
Proof.
  revert n downloaded st c.
  induction reads as [|[[|x chunk]|e] rest IH]; intros n downloaded st c Hc E.
  - injection E as <-. split; [done|].
    rewrite app_empty_r, (insert_id _ _ _ Hc). destruct cb; by rewrite app_nil_r.
  - injection E as <-. split; [done|].
    rewrite app_empty_r, (insert_id _ _ _ Hc). destruct cb; by rewrite app_nil_r.
  - destruct (write_error env n) as [e|] eqn:Hw.
    + by rewrite (read_loop_write_fails _ _ _ _ _ _ _ _ _ Hw) in E.
    + rewrite (read_loop_step _ _ _ _ _ _ _ _ Hw) in E.
      destruct (escape cb _ total); [done|].
      apply (IH _ _ _ (c +:+ String x chunk)) in E as (Ht & Hf & Hl).
      2:{ simpl. rewrite Hc. apply lookup_insert_eq. }
      cbn [transfer_ok]. rewrite Hw, bool_decide_eq_true_2 by done. cbn [andb].
      split; [exact Ht|]. split.
      * rewrite Hf. simpl. rewrite Hc, insert_insert_eq. cbn [default].
        by rewrite app_assoc'.
      * rewrite Hl. destruct cb; simpl; [|done]. by rewrite <- app_assoc.
  - done.
Qed.



End Downloader.

Section DownloadContract.
Import ModManager.

Lemma failed_exception (env : download_env) (e : exn) (st : dl_state) :
  is_exception e = true ->
  failed env e st =
    match print_error env with
    | Some e' => (Raised e', st)
    | None => (Returned false, st)
    end.
Proof.
  intros He. unfold failed, print_failure. munfold. rewrite He.
  by destruct (print_error env).
Qed.

Lemma failed_not_true (env : download_env) (e : exn) (st st' : dl_state) :
  failed env e st <> (Returned true, st').
Proof.
  unfold failed, print_failure. munfold.
  destruct (is_exception e); [|done]. by destruct (print_error env).
Qed.

(** What the function does in terms of the loop. *)
Lemma download_unfold (env : download_env) (dest_path : string)
    (cb : option callback) (st : dl_state) :
  download_url_to_path env dest_path cb st =
    match urlopen env with
    | Raised e => failed env e st
    | Returned resp =>
        match parse_total (content_length resp) with
        | Raised e => failed env e st
        | Returned total =>
            if bool_decide (Path.dirname dest_path = EmptyString)
            then failed env FileNotFoundError st
            else match makedirs_error env, open_error env with
                 | Some e, _ => failed env e st
                 | None, Some e => failed env e st
                 | None, None =>
                     match read_loop env dest_path cb total
                             (stream resp) 0 0 (opened dest_path st) with
                     | (Returned _, st') => (Returned true, st')
                     | (Raised e, st') => failed env e st'
                     end
                 end
        end
    end.
Proof.
  unfold download_url_to_path, makedirs, open_wb, failed. munfold.
  destruct (urlopen env) as [resp|e]; [|done].
  destruct (parse_total (content_length resp)) as [total|e]; [|done].
  destruct (bool_decide (Path.dirname dest_path = EmptyString)); [done|].
  destruct (makedirs_error env); [done|].
  destruct (open_error env); [done|].
  fold (opened dest_path st).
  by destruct (read_loop _ _ _ _ _ _ _ _) as [[[]|e] st'].
Qed.

(** A download that returns [True], whatever the callback. *)
Lemma download_true_inv (env : download_env) (dest_path : string)
    (cb : option callback) (st st' : dl_state) :
  download_url_to_path env dest_path cb st = (Returned true, st') ->
  exists resp total,
    urlopen env = Returned resp /\
    parse_total (content_length resp) = Returned total /\
    clean_run env dest_path = true /\
    files st' !! dest_path = Some (received (stream resp)) /\
    progress_log st' =
      progress_log st ++ logged cb (reports total (stream resp) 0).
Proof.
  rewrite download_unfold. unfold clean_run, header_read.
  destruct (urlopen env) as [resp|e]; [|by intros H%failed_not_true].
  destruct (parse_total (content_length resp)) as [total|e] eqn:Ep;
    [|by intros H%failed_not_true].
  destruct (bool_decide (Path.dirname dest_path = EmptyString));
    [by intros H%failed_not_true|].
  destruct (makedirs_error env); [by intros H%failed_not_true|].
  destruct (open_error env); [by intros H%failed_not_true|].
  destruct (read_loop _ _ _ _ _ _ _ _) as [[[]|e] st1] eqn:E;
    [|by intros H%failed_not_true].
  intros [= <-].
  apply (read_loop_returned _ _ _ _ _ _ _ _ _ EmptyString) in E as (Ht & Hf & Hl).
  2:{ apply lookup_insert_eq. }
  exists resp, total. split; [done|]. split; [done|].
  rewrite Ht, !bool_decide_eq_true_2 by done. split; [done|].
  split; [|exact Hl]. rewrite Hf, app_nil. apply lookup_insert_eq.
Qed.






(** C7, as stated, fails: the stream ends after three bytes although
    ten were announced, and the download succeeds with a file of three
    bytes. *)
Lemma download_size_not_checked :
  let env := {| urlopen := Returned {| content_length := Some "10";
                                       stream := [Chunk "abc"] |};
                makedirs_error := None; open_error := None;
                write_error := fun _ => None; print_error := None |} in
  exists st' data,
    download_url_to_path env "/opt/mm/update_new.exe" None
      {| files := ∅; progress_log := [] |} = (Returned true, st') /\
    parse_total (Some "10") = Returned (Some 10%N) /\
    files st' !! "/opt/mm/update_new.exe" = Some data /\
    N.of_nat (String.length data) <> 10%N.
Proof.
  eexists _, "abc". split; [vm_compute; reflexivity|].
  split; [reflexivity|]. split; [vm_compute; reflexivity|]. discriminate.
Qed.

(** C7 (amended): after a successful download the file at the
    destination holds exactly the bytes the stream delivered before it
    ended, so its size is their number, the last count reported to the
    callback; the announced length is handed to the callback and never
    compared with that number. *)
Theorem download_size_is_received (env : download_env) (dest_path : string)
    (cb : option callback) (st st' : dl_state) :
  download_url_to_path env dest_path cb st = (Returned true, st') ->
  exists resp total,
    urlopen env = Returned resp /\
    parse_total (content_length resp) = Returned total /\
    files st' !! dest_path = Some (received (stream resp)) /\
    progress_log st' =
      progress_log st ++ logged cb (reports total (stream resp) 0).
Proof.
  intros E. apply download_true_inv in E as (resp & total & Hu & Hp & _ & Hf & Hl).
  by exists resp, total.
Qed.

Lemma download_size_is_received_witness :
  let env := {| urlopen := Returned {| content_length := Some "10";
                                       stream := [Chunk "abc"; Chunk "de"] |};
                makedirs_error := None; open_error := None;
                write_error := fun _ => None; print_error := None |} in
  let st := {| files := ∅; progress_log := [] |} in
  let cb : option callback := Some (fun _ _ => Raised CallbackError) in
  exists resp total,
    urlopen env = Returned resp /\
    parse_total (content_length resp) = Returned total /\
    files (download_url_to_path env "/opt/mm/update_new.exe" cb st).2
      !! "/opt/mm/update_new.exe" = Some (received (stream resp)) /\
    progress_log (download_url_to_path env "/opt/mm/update_new.exe" cb st).2 =
      progress_log st ++ logged cb (reports total (stream resp) 0).
Proof.
  intros env st cb.
  apply (download_size_is_received env "/opt/mm/update_new.exe" cb st).
  vm_compute. reflexivity.
Defined.

End DownloadContract.

(** ** Merging a resource archive *)

Section Archives.

Lemma write_file_spec (p data : string) (w : Fs.world) :
  Fs.write_file p data w =
    if bool_decide (p ∈ Fs.locked w) then (Raised PermissionError, w)
    else (Returned tt, Fs.set_files (<[p := data]> (Fs.files w)) w).
Proof. reflexivity. Qed.

(** What [extract_to] can do to the world: nothing, or a write at its
    target. *)
Lemma extract_to_frame (m : Zip.member) (target : string) (w : Fs.world) :
  let r := Zip.extract_to m target w in
  Fs.locked r.2 = Fs.locked w /\ Fs.trace r.2 = Fs.trace w /\
  (forall p, p <> target -> Fs.files r.2 !! p = Fs.files w !! p) /\
  (Zip.data m <> Zip.BadOpen -> target ∉ Fs.locked w ->
     exists d, Fs.files r.2 !! target = Some d) /\
  (match Zip.data m with Zip.Good _ => False | _ => True end ->
     exists e, r.1 = Raised e).
Proof.
  unfold Zip.extract_to.
  destruct (Zip.data m) as [d| |d]; munfold; rewrite ?write_file_spec.
  - destruct (bool_decide (target ∈ Fs.locked w)) eqn:Hl; simpl.
    + repeat split; try done. intros _ Hn.
      by apply bool_decide_eq_true in Hl.
    + repeat split; try done.
      * intros p Hp. by apply lookup_insert_ne.
      * intros _ _. exists d. apply lookup_insert_eq.
  - simpl. repeat split; try done. eauto.
  - destruct (bool_decide (target ∈ Fs.locked w)) eqn:Hl; simpl.
    + repeat split; try done; [|eauto]. intros _ Hn.
      by apply bool_decide_eq_true in Hl.
    + repeat split; try done; [| |eauto].
      * intros p Hp. by apply lookup_insert_ne.
      * intros _ _. exists d. apply lookup_insert_eq.
Qed.

Lemma below_extracted (target name : string) :
  Fs.below target (OldUpdater11.extracted_path target name) = true.
Proof.
  unfold Fs.below, OldUpdater11.extracted_path.
  rewrite <- app_assoc'. apply startswith_app.
Qed.

(** [extractall] writes below its target only, and raises as soon as
    the archive has a member that cannot be read. *)
Lemma extractall_frame (target : string) (ms : list Zip.member) (w : Fs.world) :
  let r := OldUpdater11.extractall target ms w in
  Fs.locked r.2 = Fs.locked w /\ Fs.trace r.2 = Fs.trace w /\
  (forall p, Fs.below target p = false -> Fs.files r.2 !! p = Fs.files w !! p) /\
  (forallb Zip.is_good ms = false -> exists e, r.1 = Raised e).
Proof.
  revert w. induction ms as [|m ms IH]; intros w; [by repeat split|].
  cbn [OldUpdater11.extractall forallb]. unfold Zip.is_good.
  destruct (Zip.is_dir m) eqn:Hd.
  - munfold. cbn [orb andb]. apply IH.
  - cbn [orb].
    pose proof (extract_to_frame m (OldUpdater11.extracted_path target (Zip.name m)) w)
      as (Hl & Ht & Hf & _ & Hbad).
    unfold mbind, M_bind, bind.
    destruct (Zip.extract_to m _ w) as [[[]|e] w1] eqn:E; simpl in *.
    + destruct (IH w1) as (Hl1 & Ht1 & Hf1 & Hbad1).
      split; [congruence|]. split; [congruence|]. split.
      * intros p Hp. rewrite Hf1 by done. apply Hf.
        intros ->. by rewrite below_extracted in Hp.
      * destruct (Zip.data m); [exact Hbad1| |];
          by destruct Hbad as (e & ?).
    + split; [done|]. split; [done|]. split; [|eauto].
      intros p Hp. apply Hf. intros ->. by rewrite below_extracted in Hp.
Qed.

Lemma rmtree_spec (d : string) (w : Fs.world) :
  let r := Fs.rmtree d w in
  r.1 = Returned tt /\
  (forall p, Fs.below d p = false -> Fs.files r.2 !! p = Fs.files w !! p) /\
  (forall p, Fs.below d p = true -> Fs.files r.2 !! p = None).
Proof.
  unfold Fs.rmtree. munfold. simpl. split; [done|]. split.
  - intros p Hp. destruct (Fs.files w !! p) as [c|] eqn:E.
    + apply map_lookup_filter_Some. split; [done|]. simpl. rewrite Hp. intros [].
    + apply map_lookup_filter_None. by left.
  - intros p Hp. apply map_lookup_filter_None. right.
    intros c _. simpl. rewrite Hp. intros H. by apply H.
Qed.

(** The staged extraction of the old updater: a failure while the
    archive is extracted reaches no file outside the staging
    directory. *)
Lemma unzip_to_extraction_failure (dec : Zip.decoder)
    (tempdir zip_path dest_folder bytes : string) (ms : list Zip.member)
    (w : Fs.world) :
  Fs.files w !! zip_path = Some bytes ->
  dec bytes = Returned ms ->
  forallb Zip.is_good ms = false ->
  exists e w',
    OldUpdater11.unzip_to dec tempdir zip_path dest_folder true w = (Raised e, w') /\
    (forall p, Fs.below tempdir p = false -> Fs.files w' !! p = Fs.files w !! p) /\
    (forall p, Fs.below tempdir p = true -> Fs.files w' !! p = None).
Proof.
  intros Hz Hd Hbad. unfold OldUpdater11.unzip_to, Update.open_zip.
  unfold mbind, M_bind, bind at 1. unfold bind at 1, get at 1. rewrite Hz.
  unfold lift. rewrite Hd. unfold try_finally.
  unfold bind at 1.
  pose proof (extractall_frame tempdir ms w) as H. cbv zeta in H.
  destruct (OldUpdater11.extractall tempdir ms w) as [o w1].
  destruct H as (_ & _ & Hf & Hr). cbn [fst snd] in Hf, Hr.
  destruct (Hr Hbad) as (e & ->).
  pose proof (rmtree_spec tempdir w1) as H. cbv zeta in H.
  destruct (Fs.rmtree tempdir w1) as [o2 w2].
  destruct H as (Ho & Hk & Hg). cbn [fst snd] in Ho, Hk, Hg. subst o2.
  exists e, w2. split; [done|]. split; [|exact Hg].
  intros p Hp. rewrite Hk by done. by apply Hf.
Qed.

Lemma unzip_to_bad_archive (dec : Zip.decoder)
    (tempdir zip_path dest_folder bytes : string) (e : exn) (w : Fs.world) :
  Fs.files w !! zip_path = Some bytes ->
  dec bytes = Raised e ->
  OldUpdater11.unzip_to dec tempdir zip_path dest_folder true w = (Raised e, w).
Proof.
  intros Hz Hd. unfold OldUpdater11.unzip_to, Update.open_zip.
  unfold mbind, M_bind, bind at 1. unfold bind at 1, get at 1. rewrite Hz.
  unfold lift. by rewrite Hd.
Qed.

Lemma merge_members_app (dest : string) (a b : list Zip.member) (w : Fs.world) :
  Update.merge_members dest (a ++ b) w =
    match Update.merge_members dest a w with
    | (Returned _, w1) => Update.merge_members dest b w1
    | (Raised e, w1) => (Raised e, w1)
    end.
Proof.
  revert w. induction a as [|m a IH]; intros w; [done|].
  cbn [app Update.merge_members]. unfold mbind, M_bind, bind.
  destruct (Update.merge_member dest m w) as [[[]|e] w1]; [apply IH | done].
Qed.

Lemma merge_member_bad_open (dest : string) (m : Zip.member) (w : Fs.world) :
  Zip.is_dir m = false -> Zip.data m = Zip.BadOpen ->
  Update.merge_member dest m w = (Raised BadZipFile, w).
Proof.
  intros Hd Hb. unfold Update.merge_member, Zip.extract_to. rewrite Hd, Hb.
  by destruct (Update.names_directory _ _).
Qed.

(** A sound file member replaces its destination file at once. *)
Lemma merge_member_good (dest : string) (m : Zip.member) (d : string) (w : Fs.world) :
  Zip.is_dir m = false -> Zip.data m = Zip.Good d ->
  Update.names_directory dest (Update.target_path dest (Zip.name m)) = false ->
  Update.target_path dest (Zip.name m) ∉ Fs.locked w ->
  Update.merge_member dest m w =
    (Returned tt,
     Fs.set_files (<[Update.target_path dest (Zip.name m) := d]> (Fs.files w)) w).
Proof.
  intros Hd Hg Hn Hl. unfold Update.merge_member, Zip.extract_to.
  rewrite Hd, Hn, Hg, write_file_spec. by rewrite bool_decide_eq_false_2.
Qed.

(** The direct merge of the installer: when a member cannot be opened
    the members before it have been merged already. *)
Lemma unzip_and_merge_stops_late (dec : Zip.decoder) (zip_path dest bytes : string)
    (before rest : list Zip.member) (bad : Zip.member) (w w1 : Fs.world) :
  Fs.files w !! zip_path = Some bytes ->
  dec bytes = Returned (before ++ bad :: rest) ->
  Update.merge_members dest before w = (Returned tt, w1) ->
  Zip.is_dir bad = false -> Zip.data bad = Zip.BadOpen ->
  Update.unzip_and_merge dec zip_path dest w = (Raised BadZipFile, w1).
Proof.
  intros Hz Hd Hm Hdir Hbad. unfold Update.unzip_and_merge, Update.open_zip.
  unfold mbind, M_bind, bind at 1. unfold bind at 1, get at 1. rewrite Hz.
  unfold lift. rewrite Hd, merge_members_app, Hm.
  cbn [Update.merge_members]. unfold mbind, M_bind, bind.
  by rewrite (merge_member_bad_open dest bad w1 Hdir Hbad).
Qed.

End Archives.

Section ArchiveClaim.

(** C2, as stated, fails for the installer's [unzip_and_merge]: the
    second member cannot be opened, the call raises, and the first
    member has already replaced its file in the destination. *)
Lemma merge_failure_partial_overwrite :
  let dec : Zip.decoder := fun _ =>
    Returned [ {| Zip.name := "a.txt"; Zip.data := Zip.Good "A2" |};
               {| Zip.name := "b.txt"; Zip.data := Zip.BadOpen |} ] in
  let w := {| Fs.files := {[ "/opt/mm/resources.zip" := "PK";
                             "/opt/mm/resources/a.txt" := "A1";
                             "/opt/mm/resources/b.txt" := "B1" ]};
              Fs.locked := ∅; Fs.trace := [] |} in
  exists w',
    Update.unzip_and_merge dec "/opt/mm/resources.zip" "/opt/mm/resources" w
    = (Raised BadZipFile, w') /\
    Fs.files w !! "/opt/mm/resources/a.txt" = Some "A1" /\
    Fs.files w' !! "/opt/mm/resources/a.txt" = Some "A2" /\
    Fs.files w' !! "/opt/mm/resources/b.txt" = Some "B1".
Proof.
  eexists. split; [vm_compute; reflexivity|].
  repeat split; vm_compute; reflexivity.
Qed.

(** C2 (amended): [unzip_to] of the 1.1 updater, in overwrite mode,
    extracts the whole archive into a throwaway staging directory before
    it copies anything, so a failure while extracting (an archive that
    does not decode, a member that cannot be read) leaves every file
    outside the staging directory as it was and the staging directory
    empty. [unzip_and_merge] of the installer has no staging: it writes
    each file member straight to its destination, in archive order, so
    when a member cannot be opened the members before it have already
    replaced their files. *)
Theorem archive_failure_behaviour :
  (forall (dec : Zip.decoder) tempdir zip_path dest_folder bytes ms (w : Fs.world),
     Fs.files w !! zip_path = Some bytes ->
     dec bytes = Returned ms ->
     forallb Zip.is_good ms = false ->
     exists e w',
       OldUpdater11.unzip_to dec tempdir zip_path dest_folder true w = (Raised e, w') /\
       (forall p, Fs.below tempdir p = false -> Fs.files w' !! p = Fs.files w !! p) /\
       (forall p, Fs.below tempdir p = true -> Fs.files w' !! p = None)) /\
  (forall (dec : Zip.decoder) tempdir zip_path dest_folder bytes e (w : Fs.world),
     Fs.files w !! zip_path = Some bytes ->
     dec bytes = Raised e ->
     OldUpdater11.unzip_to dec tempdir zip_path dest_folder true w = (Raised e, w)) /\
  (forall (dec : Zip.decoder) zip_path dest bytes before rest bad (w w1 : Fs.world),
     Fs.files w !! zip_path = Some bytes ->
     dec bytes = Returned (before ++ bad :: rest) ->
     Update.merge_members dest before w = (Returned tt, w1) ->
     Zip.is_dir bad = false -> Zip.data bad = Zip.BadOpen ->
     Update.unzip_and_merge dec zip_path dest w = (Raised BadZipFile, w1)) /\
  (forall dest m d (w : Fs.world),
     Zip.is_dir m = false -> Zip.data m = Zip.Good d ->
     Update.names_directory dest (Update.target_path dest (Zip.name m)) = false ->
     Update.target_path dest (Zip.name m) ∉ Fs.locked w ->
     Update.merge_member dest m w =
       (Returned tt,
        Fs.set_files (<[Update.target_path dest (Zip.name m) := d]> (Fs.files w)) w)).
Proof.
  split; [|split; [|split]].
  - apply unzip_to_extraction_failure.
  - apply unzip_to_bad_archive.
  - apply unzip_and_merge_stops_late.
  - apply merge_member_good.
Qed.

Lemma archive_failure_behaviour_witness :
  let a := {| Zip.name := "resources/a.txt"; Zip.data := Zip.Good "A2" |} in
  let b := {| Zip.name := "d/b.txt"; Zip.data := Zip.BadRead "B" |} in
  let c := {| Zip.name := "c.txt"; Zip.data := Zip.BadOpen |} in
  let w := {| Fs.files := {[ "/opt/mm/resources.zip" := "PK";
                             "/opt/mm/resources/a.txt" := "A1" ]};
              Fs.locked := ∅; Fs.trace := [] |} in
  (exists e w',
     OldUpdater11.unzip_to (fun _ => Returned [a; b]) "/tmp/t1"
       "/opt/mm/resources.zip" "/opt/mm/resources" true w = (Raised e, w') /\
     (forall p, Fs.below "/tmp/t1" p = false -> Fs.files w' !! p = Fs.files w !! p) /\
     (forall p, Fs.below "/tmp/t1" p = true -> Fs.files w' !! p = None)) /\
  OldUpdater11.unzip_to (fun _ => Raised BadZipFile) "/tmp/t1"
    "/opt/mm/resources.zip" "/opt/mm/resources" true w = (Raised BadZipFile, w) /\
  Update.unzip_and_merge (fun _ => Returned ([a] ++ c :: [])) "/opt/mm/resources.zip"
    "/opt/mm/resources" w
  = (Raised BadZipFile, (Update.merge_members "/opt/mm/resources" [a] w).2) /\
  Update.merge_member "/opt/mm/resources" a w =
    (Returned tt,
     Fs.set_files (<[Update.target_path "/opt/mm/resources" (Zip.name a) := "A2"]>
                     (Fs.files w)) w).
Proof.
  intros a b c w.
  destruct archive_failure_behaviour as (H1 & H2 & H3 & H4).
  split; [|split; [|split]].
  - apply (H1 (fun _ => Returned [a; b]) "/tmp/t1" "/opt/mm/resources.zip"
             "/opt/mm/resources" "PK" [a; b] w); vm_compute; reflexivity.
  - apply (H2 (fun _ => Raised BadZipFile) "/tmp/t1" "/opt/mm/resources.zip"
             "/opt/mm/resources" "PK" BadZipFile w); vm_compute; reflexivity.
  - apply (H3 (fun _ => Returned ([a] ++ c :: [])) "/opt/mm/resources.zip"
             "/opt/mm/resources" "PK" [a] [] c w); vm_compute; reflexivity.
  - apply (H4 "/opt/mm/resources" a "A2" w); try (vm_compute; reflexivity).
    vm_compute. discriminate.
Defined.

End ArchiveClaim.

(** ** The downloads of the installers *)

Section ReplaceLength.

Variables old new : string.
Hypothesis old_nonempty : old <> EmptyString.


Lemma startswith_refl (p : string) : PyStr.startswith p p = true.
Proof.
  induction p as [|c p IH]; simpl; [done|].
  destruct (decide (c = c)); [exact IH | congruence].
Qed.



End ReplaceLength.

Section InstallerDownloads.







End InstallerDownloads.

Section InPlaceDownload.





End InPlaceDownload.

Section InPlaceDownload12.








End InPlaceDownload12.

(** ** The events of the installers *)

Section Events.

Variable ok : Fs.event -> Prop.



















End Events.



Section DownloadTargets.





End DownloadTargets.

(** ** Replacing an executable *)

Section AtomicReplace.







End AtomicReplace.

Section DeferredReplace.
Import OldUpdater11.

Variable release_after : nat.
Variable target : string.





End DeferredReplace.

Section DeferredCommit.
Import OldUpdater11.




End DeferredCommit.

Section ReplaceClaim.
Import OldUpdater11.




End ReplaceClaim.

(** * Further properties of the modelled code *)

(** ** The check workflow, beyond its failure path *)

Section CheckWorkflowMore.
Import ModManager.

Lemma lstrip_clean (s : string) :
  PyStr.starts_clean s = true -> PyStr.lstrip s = s.
Proof.
  destruct s as [|c s]; simpl; [done|]. by intros ->%negb_true_iff.
Qed.

Lemma rstrip_clean (s : string) :
  PyStr.ends_clean s = true -> PyStr.rstrip s = s.
Proof.
  induction s as [|c s IH]; [done|]. cbn [PyStr.rstrip PyStr.ends_clean].
  destruct s as [|d s].
  - simpl. by intros ->%negb_true_iff.
  - intros H. by rewrite (IH H).
Qed.

Lemma strip_clean (s : string) :
  PyStr.starts_clean s = true -> PyStr.ends_clean s = true -> PyStr.strip s = s.
Proof. intros H1 H2. unfold PyStr.strip. by rewrite (lstrip_clean s H1), rstrip_clean. Qed.

Lemma digit_not_space (c : ascii) :
  PyStr.is_digit_char c = true -> PyStr.isspace c = false.
Proof.
  unfold PyStr.is_digit_char, PyStr.isspace.
  intros [H1%Nat.leb_le H2%Nat.leb_le]%andb_true_iff.
  repeat match goal with
         | |- context [?a <=? ?b] => destruct (Nat.leb_spec a b); try lia
         | |- context [?a =? ?b] => destruct (Nat.eqb_spec a b); try lia
         end; reflexivity.
Qed.

Lemma dotted_is_digits_then_numbers (s : string) :
  is_dotted_numeric s = true -> digits_then_numbers s.
Proof.
  unfold is_dotted_numeric, digits_then_numbers.
  destruct (split_nonempty "." s) as (h & r & ->). simpl.
  intros [Hh Hr]%andb_true_iff. split; [|done]. by destruct h.
Qed.

Lemma digits_then_numbers_ends_clean (s : string) :
  digits_then_numbers s -> PyStr.ends_clean s = true.
Proof.
  induction s as [|c s IH]; [done|]. unfold digits_then_numbers. cbn [PyStr.split].
  destruct (decide (c = "."%char)) as [->|Hc].
  - intros [_ Hr]. assert (Hs : is_dotted_numeric s = true) by exact Hr.
    destruct s as [|d s]; [done|].
    cbn [PyStr.ends_clean]. apply IH. by apply dotted_is_digits_then_numbers.
  - destruct (PyStr.split "." s) as [|h r] eqn:E.
    { destruct (split_nonempty "." s) as (? & ? & ?). congruence. }
    cbn [PyStr.all_digits]. intros [[Hd Hh]%andb_true_iff Hr].
    destruct s as [|d s].
    + simpl. by rewrite (digit_not_space c Hd).
    + cbn [PyStr.ends_clean]. apply IH. unfold digits_then_numbers. by rewrite E.
Qed.

(** A dotted-numeric string begins with a digit and is free of
    whitespace at both ends. *)
Lemma dotted_shape (s : string) :
  is_dotted_numeric s = true ->
  exists c s', s = String c s' /\ PyStr.is_digit_char c = true /\
               PyStr.ends_clean s = true.
Proof.
  intros H. pose proof (digits_then_numbers_ends_clean s
                          (dotted_is_digits_then_numbers s H)) as He.
  destruct s as [|c s]; [done|]. exists c, s. split; [done|]. split; [|done].
  unfold is_dotted_numeric in H. cbn [PyStr.split] in H.
  destruct (decide (c = "."%char)); [done|].
  destruct (PyStr.split "." s) as [|h r]; simpl in H.
  - by apply andb_true_iff in H as [[? _]%andb_true_iff _].
  - by apply andb_true_iff in H as [[? _]%andb_true_iff _].
Qed.

Lemma digit_is_not_v (c : ascii) :
  PyStr.is_digit_char c = true -> c <> "v"%char /\ c <> "V"%char.
Proof. intros H. split; intros ->; discriminate. Qed.

(** A dotted-numeric tag, with or without one leading [v], normalises to
    its numbers. *)
Lemma normalize_dotted (t : string) :
  is_dotted_numeric t = true ->
  semver_normalize (Some t) = Some t /\
  semver_normalize (Some ("v" +:+ t)) = Some t /\
  semver_normalize (Some ("V" +:+ t)) = Some t.
Proof.
  intros H. destruct (dotted_shape t H) as (c & t' & -> & Hd & He).
  pose proof (digit_not_space c Hd) as Hsp.
  destruct (digit_is_not_v c Hd) as [Hv HV].
  assert (E0 : PyStr.strip (String c t') = String c t').
  { apply strip_clean; [simpl; by rewrite Hsp | done]. }
  assert (Ev : forall x, PyStr.isspace x = false ->
                         PyStr.strip (String x (String c t')) = String x (String c t')).
  { intros x Hx. apply strip_clean; [simpl; by rewrite Hx | exact He]. }
  split; [|split].
  - unfold semver_normalize. rewrite E0. simpl.
    destruct (decide ("v"%char = c)); [congruence|].
    destruct (decide ("V"%char = c)); [congruence|]. done.
  - rewrite app_cons, app_nil. unfold semver_normalize. by rewrite (Ev "v"%char eq_refl).
  - rewrite app_cons, app_nil. unfold semver_normalize. by rewrite (Ev "V"%char eq_refl).
Qed.

End CheckWorkflowMore.

Section CheckWorkflowVerdict.
Import ModManager.

(** X1: whatever the request meets and whatever the release document
    holds, also when the check raises, no key of the settings other than
    [last_release_tag] is changed: version, install path and mod paths
    stay as they were. *)
Theorem check_touches_only_last_release_tag `{P : Packaging}
    (ev : fetch_event) (sv : save_event) (st : app) (k : string) :
  k <> "last_release_tag" ->
  settings (_check_updates_and_update_ui ev sv st).2 !! k = settings st !! k.
Proof.
  intros Hk. unfold _check_updates_and_update_ui.
  destruct (fetch_latest_release_info ev) as [latest|]; [|done].
  destruct (truthy latest); [|done]. cbn [negb].
  assert (Hend : forall (b : bool) (label : string) (tag : json) (s : app),
    settings ((set_last_release_tag tag;; save_settings sv;;
               set_update_status b label) s).2 !! k = settings s !! k).
  { intros b label tag s. unfold set_last_release_tag, save_settings, set_update_status.
    munfold. destruct sv; simpl; by rewrite lookup_insert_ne. }
  munfold.
  destruct (dict_get latest "tag_name") as [t1|e1]; [|done].
  assert (Hrest : forall tag : json,
    settings
      (let (o, s') := (semver_normalize_json tag, st) in
       match o with
       | Returned a =>
           let (o0, s'0) := (Returned s', s') in
           match o0 with
           | Returned a0 =>
               let (o1, s'1) :=
                 (semver_normalize_json
                    (default (JStr SCRIPT_VERSION) (settings a0 !! "version")), s'0) in
               match o1 with
               | Returned a1 =>
                   (if nonempty a && nonempty a1 && is_version_newer a1 a
                    then
                      fun s : app =>
                      let (o2, s'2) := set_last_release_tag tag s in
                      match o2 with
                      | Returned _ =>
                          let (o3, s'3) := save_settings sv s'2 in
                          match o3 with
                          | Returned _ =>
                              set_update_status true
                                ("Update available (" +:+ tag_text tag +:+ ")") s'3
                          | Raised e => (Raised e, s'3)
                          end
                      | Raised e => (Raised e, s'2)
                      end
                    else
                      fun s : app =>
                      let (o2, s'2) := set_last_release_tag tag s in
                      match o2 with
                      | Returned _ =>
                          let (o3, s'3) := save_settings sv s'2 in
                          match o3 with
                          | Returned _ => set_update_status false "Up to date" s'3
                          | Raised e => (Raised e, s'3)
                          end
                      | Raised e => (Raised e, s'2)
                      end) s'1
               | Raised e => (Raised e, s'1)
               end
           | Raised e => (Raised e, s'0)
           end
       | Raised e => (Raised e, s')
       end).2 !! k = settings st !! k).
  { intros tag. destruct (semver_normalize_json tag) as [tn|e]; [|done].
    destruct (semver_normalize_json _) as [inst|e]; [|done].
    munfold. destruct (nonempty tn && nonempty inst && is_version_newer inst tn).
    - apply (Hend true).
    - apply (Hend false). }
  destruct (truthy t1).
  - apply Hrest.
  - destruct (dict_get latest "name") as [t2|e2]; [|done]. apply Hrest.
Qed.

Lemma check_touches_only_last_release_tag_witness :
  let st := {| settings := {["version" := JStr "1.0.9"]};
               settings_file := FileTruncated; update_status := None |} in
  settings (@_check_updates_and_update_ui release_only
              (FetchBody (Some (JObj [("tag_name", JStr "v2.0")]))) SaveOk st).2
    !! "version"
  = settings st !! "version".
Proof.
  intros st.
  apply (@check_touches_only_last_release_tag release_only
           (FetchBody (Some (JObj [("tag_name", JStr "v2.0")]))) SaveOk st "version").
  discriminate.
Defined.

(** X2: for a dotted-numeric installed version and a release whose
    [tag_name] is a dotted-numeric version with or without one leading
    [v], no number having more than 4300 digits, the check returns, stores the tag as received under
    [last_release_tag], saves, and reports "Update available (tag)"
    exactly when the tag's numbers are greater in the zero-padded order;
    otherwise it reports "Up to date". *)
Theorem check_verdict_dotted `{P : Packaging} (sv : save_event) (st : app)
    (items : list (string * json)) (tag t v : string) :
  is_dotted_numeric t = true -> is_dotted_numeric v = true ->
  convertible t = true -> convertible v = true ->
  tag = t \/ tag = "v" +:+ t \/ tag = "V" +:+ t ->
  assoc "tag_name" items = Some (JStr tag) ->
  default (JStr SCRIPT_VERSION) (settings st !! "version") = JStr v ->
  exists st',
    _check_updates_and_update_ui (FetchBody (Some (JObj items))) sv st
    = (Returned tt, st') /\
    settings st' = <["last_release_tag" := JStr tag]> (settings st) /\
    (sv = SaveOk -> settings_file st' = FileJson (settings st')) /\
    update_status st' =
      Some (if padded_gt (release_of t) (release_of v)
            then (true, "Update available (" +:+ tag +:+ ")")
            else (false, "Up to date")).
Proof.
  intros Ht Hv Ct Cv Htag Hitems Hver.
  destruct (normalize_dotted t Ht) as (Nt & Ntv & NtV).
  destruct (normalize_dotted v Hv) as (Nv & _ & _).
  destruct (dotted_shape t Ht) as (ct & t' & Et & _ & _).
  destruct (dotted_shape v Hv) as (cv & v' & Ev & _ & _).
  assert (Hnorm : semver_normalize (Some tag) = Some t)
    by (destruct Htag as [->|[->| ->]]; done).
  assert (Htne : tag <> EmptyString).
  { destruct Htag as [->|[->| ->]]; [by rewrite Et | done | done]. }
  assert (Hnew : is_version_newer (Some v) (Some t)
                 = padded_gt (release_of t) (release_of v)).
  { by rewrite (newer_on_dotted v t Hv Ht), Cv, Ct. }
  unfold _check_updates_and_update_ui. cbn [fetch_latest_release_info fetch_body].
  destruct items as [|it items']; [done|]. cbn [truthy negb].
  set (its := it :: items') in *.
  unfold set_last_release_tag, save_settings, set_update_status. munfold.
  cbn [dict_get]. rewrite Hitems. cbn [default from_option id truthy].
  rewrite (bool_decide_eq_false_2 (tag = EmptyString)) by done. cbn [negb].
  unfold semver_normalize_json at 1. cbn [truthy].
  rewrite (bool_decide_eq_false_2 (tag = EmptyString)) by done. cbn [negb].
  rewrite Hnorm. fold (default (JStr SCRIPT_VERSION) (settings st !! "version")).
  rewrite Hver. unfold semver_normalize_json. cbn [truthy].
  rewrite (bool_decide_eq_false_2 (v = EmptyString)) by (by rewrite Ev). cbn [negb].
  rewrite Nv.
  assert (Hne : nonempty (Some t) && nonempty (Some v) = true) by (by rewrite Et, Ev).
  rewrite Hne, Hnew. cbn [andb].
  destruct (padded_gt (release_of t) (release_of v)).
  - eexists. split; [reflexivity|]. cbn.
    split; [by destruct sv|]. split; [by intros ->|done].
  - eexists. split; [reflexivity|]. cbn.
    split; [by destruct sv|]. split; [by intros ->|done].
Qed.

Lemma check_verdict_dotted_witness :
  let st := {| settings := {["version" := JStr "1.0.9"]};
               settings_file := FileTruncated; update_status := None |} in
  exists st',
    @_check_updates_and_update_ui release_only
      (FetchBody (Some (JObj [("tag_name", JStr "v1.0.10")]))) SaveOk st
    = (Returned tt, st') /\
    settings st' = <["last_release_tag" := JStr "v1.0.10"]> (settings st) /\
    (SaveOk = SaveOk -> settings_file st' = FileJson (settings st')) /\
    update_status st' =
      Some (if padded_gt (release_of "1.0.10") (release_of "1.0.9")
            then (true, "Update available (" +:+ "v1.0.10" +:+ ")")
            else (false, "Up to date")).
Proof.
  intros st.
  apply (@check_verdict_dotted release_only SaveOk st
           [("tag_name", JStr "v1.0.10")] "v1.0.10" "1.0.10" "1.0.9").
  - reflexivity.
  - reflexivity.
  - reflexivity.
  - reflexivity.
  - right. left. reflexivity.
  - reflexivity.
  - reflexivity.
Defined.

(** X3: a release document that cannot be used changes neither the
    settings nor the settings file: a falsy document (an empty object or
    list, [null], zero, the empty string) ends in "Unable to check"; a
    truthy document that is not an object, and an object whose tag is
    truthy but not a string, make the check raise [AttributeError] with
    the whole state, status included, as it was. *)
Theorem check_unusable_document `{P : Packaging} (sv : save_event) (st : app) (doc : json) :
  (truthy doc = false ->
     _check_updates_and_update_ui (FetchBody (Some doc)) sv st
     = (Returned tt, {| settings := settings st; settings_file := settings_file st;
                        update_status := Some (false, "Unable to check") |})) /\
  (truthy doc = true -> (forall items, doc <> JObj items) ->
     _check_updates_and_update_ui (FetchBody (Some doc)) sv st
     = (Raised AttributeError, st)) /\
  (forall items tag,
     doc = JObj items -> assoc "tag_name" items = Some tag ->
     truthy tag = true -> (forall s, tag <> JStr s) ->
     _check_updates_and_update_ui (FetchBody (Some doc)) sv st
     = (Raised AttributeError, st)).
Proof.
  split; [|split].
  - intros Hf. unfold _check_updates_and_update_ui.
    cbn [fetch_latest_release_info fetch_body]. by rewrite Hf.
  - intros Ht Hno. unfold _check_updates_and_update_ui.
    cbn [fetch_latest_release_info fetch_body]. rewrite Ht. cbn [negb].
    munfold. destruct doc; try done. by destruct (Hno items).
  - intros items tag -> Hitems Ht Hns. unfold _check_updates_and_update_ui.
    cbn [fetch_latest_release_info fetch_body].
    destruct items as [|it items']; [done|]. cbn [truthy negb].
    munfold. cbn [dict_get]. rewrite Hitems. cbn [default from_option id]. rewrite Ht.
    unfold semver_normalize_json. rewrite Ht.
    destruct tag; try done. by destruct (Hns s).
Qed.

Lemma check_unusable_document_witness :
  let st := {| settings := {["version" := JStr "1.0.9"]};
               settings_file := FileTruncated; update_status := None |} in
  @_check_updates_and_update_ui release_only (FetchBody (Some (JObj []))) SaveOk st
  = (Returned tt, {| settings := settings st; settings_file := settings_file st;
                     update_status := Some (false, "Unable to check") |}) /\
  @_check_updates_and_update_ui release_only (FetchBody (Some (JArr [JNull]))) SaveOk st
  = (Raised AttributeError, st) /\
  @_check_updates_and_update_ui release_only
    (FetchBody (Some (JObj [("tag_name", JNum 7)]))) SaveOk st
  = (Raised AttributeError, st).
Proof.
  intros st. split; [|split].
  - apply (proj1 (@check_unusable_document release_only SaveOk st (JObj []))).
    reflexivity.
  - apply (proj1 (proj2 (@check_unusable_document release_only SaveOk st (JArr [JNull])))).
    + reflexivity.
    + discriminate.
  - apply (proj2 (proj2 (@check_unusable_document release_only SaveOk st
                           (JObj [("tag_name", JNum 7)])))
             [("tag_name", JNum 7)] (JNum 7)); try reflexivity. discriminate.
Defined.

End CheckWorkflowVerdict.

(** ** The downloader of modmanager.py, beyond its contract *)

Section DownloadMore.
Import ModManager.

Lemma dirname_bare (name : string) :
  Path.no_sep name = true -> Path.dirname name = EmptyString.
Proof.
  intros H. unfold Path.dirname, Path.head_raw. by rewrite (split_no_sep name H).
Qed.

(** A stream that breaks after non-empty chunks: they are all in the
    file when the loop raises. *)
Lemma read_loop_breaks (env : download_env) (dest_path : string) (cb : option callback)
    (total : option N) (cs : list string) (e : exn) (rest : list read_result)
    (n downloaded : nat) (st : dl_state) (c : string) :
  contained cb ->
  Forall (fun x => x <> EmptyString) cs ->
  (forall i, write_error env i = None) ->
  files st !! dest_path = Some c ->
  exists st',
    read_loop env dest_path cb total ((Chunk <$> cs) ++ ReadFails e :: rest)
      n downloaded st = (Raised e, st') /\
    files st' = <[dest_path := c +:+ Fs.concat cs]> (files st).
Proof.
  intros Hcb Hcs Hw. revert n downloaded st c.
  induction Hcs as [|x cs Hx Hcs IH]; intros n downloaded st c Hc.
  - exists st. split; [done|]. unfold Fs.concat. simpl.
    by rewrite app_empty_r, insert_id.
  - destruct x as [|a x]; [done|]. cbn [fmap list_fmap List.app].
    change (list_fmap string read_result Chunk cs) with (Chunk <$> cs).
    rewrite (read_loop_chunk env dest_path cb total a x _ n downloaded st Hcb (Hw n)).
    destruct (IH (S n) (downloaded + String.length (String a x))
                 (after_chunk dest_path cb total (String a x) downloaded st)
                 (c +:+ String a x)) as (st' & E & Hf).
    { simpl. rewrite Hc. apply lookup_insert_eq. }
    exists st'. split; [exact E|]. rewrite Hf. simpl. rewrite Hc. cbn [default].
    rewrite insert_insert_eq. unfold Fs.concat. cbn [foldr]. by rewrite app_assoc'.
Qed.

(** X4: the ways [download_url_to_path] fails, the errors and the
    callback's exceptions being [Exception]s and the failure message
    printable. When the request fails, when the [Content-Length] passes
    [isdigit] but [int] refuses it, and whenever the destination is a
    bare file name (its directory part is empty, so [os.makedirs]
    refuses it), it returns [False] without touching anything. Once the
    file is open, a stream that breaks makes it return [False] with the
    destination holding exactly the chunks received before the break. *)
Theorem download_failure_modes (env : download_env) (dest_path : string)
    (cb : option callback) (st : dl_state) :
  ordinary env -> print_error env = None -> contained cb ->
  (forall e, urlopen env = Raised e ->
     download_url_to_path env dest_path cb st = (Returned false, st)) /\
  (forall resp, urlopen env = Returned resp -> header_read resp = false ->
     download_url_to_path env dest_path cb st = (Returned false, st)) /\
  (Path.no_sep dest_path = true ->
     download_url_to_path env dest_path cb st = (Returned false, st)) /\
  (forall resp cs e rest,
     urlopen env = Returned resp ->
     header_read resp = true ->
     Path.dirname dest_path <> EmptyString ->
     makedirs_error env = None -> open_error env = None ->
     (forall i, write_error env i = None) ->
     stream resp = (Chunk <$> cs) ++ ReadFails e :: rest ->
     Forall (fun x => x <> EmptyString) cs ->
     exists st',
       download_url_to_path env dest_path cb st = (Returned false, st') /\
       files st' = <[dest_path := Fs.concat cs]> (files st)).
Proof.
  intros Henv Hpr Hcb.
  assert (Hfail : forall e s, is_exception e = true ->
                              failed env e s = (Returned false, s)).
  { intros e s He. by rewrite (failed_exception _ _ _ He), Hpr. }
  destruct Henv as (Hu & _ & _ & _ & Hr).
  split; [|split; [|split]].
  - intros e He. rewrite download_unfold, He. by apply Hfail, Hu.
  - intros resp He Hh. rewrite download_unfold, He. unfold header_read in Hh.
    destruct (parse_total (content_length resp)) as [t|e] eqn:Ep; [done|].
    apply Hfail. unfold parse_total in Ep. repeat case_match; by simplify_eq.
  - intros Hb. rewrite download_unfold, (dirname_bare dest_path Hb).
    destruct (urlopen env) as [resp|e] eqn:Eu; [|by apply Hfail, Hu].
    destruct (parse_total (content_length resp)) as [t|e] eqn:Ep.
    + rewrite bool_decide_eq_true_2 by done. by apply Hfail.
    + apply Hfail. unfold parse_total in Ep. repeat case_match; by simplify_eq.
  - intros resp cs e rest He Hh Hd Hm Ho Hw Hs Hcs.
    rewrite download_unfold, He. unfold header_read in Hh.
    destruct (parse_total (content_length resp)) as [total|e'] eqn:Ep; [|done].
    rewrite Hm, Ho, Hs. rewrite bool_decide_eq_false_2 by done.
    destruct (read_loop_breaks env dest_path cb total
                cs e rest 0 0 (opened dest_path st) EmptyString Hcb Hcs Hw)
      as (st' & E & Hf).
    { apply lookup_insert_eq. }
    rewrite E. exists st'. split.
    + apply Hfail, (Hr resp); [done|]. rewrite Hs.
      apply elem_of_app. right. left.
    + rewrite Hf. simpl. by rewrite insert_insert_eq, app_nil.
Qed.

Lemma download_failure_modes_witness :
  let resp := {| content_length := Some "9";
                 stream := [Chunk "NEW"; ReadFails URLError] |} in
  let env := {| urlopen := Returned resp;
                makedirs_error := None; open_error := None;
                write_error := fun _ => None; print_error := None |} in
  let st := {| files := {["/opt/mm/update_new.exe" := "OLD"]}; progress_log := [] |} in
  download_url_to_path env "update_new.exe" None st = (Returned false, st) /\
  exists st',
    download_url_to_path env "/opt/mm/update_new.exe" None st = (Returned false, st') /\
    files st' = <["/opt/mm/update_new.exe" := Fs.concat ["NEW"]]> (files st).
Proof.
  intros resp env st.
  assert (Henv : ordinary env).
  { subst env resp. repeat split; cbn; intros; simplify_eq; try done.
    match goal with H : _ ∈ _ |- _ => rename H into Hin end.
    apply elem_of_cons in Hin as [Hin|Hin]; [done|].
    apply list_elem_of_singleton in Hin. by simplify_eq. }
  split.
  - apply (proj1 (proj2 (proj2
      (download_failure_modes env "update_new.exe" None st Henv eq_refl I)))).
    reflexivity.
  - apply (proj2 (proj2 (proj2
      (download_failure_modes env "/opt/mm/update_new.exe" None st Henv eq_refl I)))
             resp ["NEW"] URLError []); try reflexivity.
    + vm_compute. discriminate.
    + repeat constructor; discriminate.
Defined.

(** The counts reported for a stream grow strictly, and the last one is
    the number of bytes delivered. *)
Lemma reports_spec (total : option N) (reads : list read_result) (d : nat) :
  Forall (fun r => d < r.1 /\ r.1 <= d + String.length (received reads) /\ r.2 = total)
         (reports total reads d) /\
  StronglySorted (fun a b => a.1 < b.1) (reports total reads d) /\
  (reports total reads d <> [] ->
   (List.last (reports total reads d) (0, None)).1 = d + String.length (received reads)).
Proof.
  revert d. induction reads as [|[[|x chunk]|e] rest IH]; intros d;
    try (split; [constructor | split; [constructor | done]]).
  cbn [reports received]. rewrite length_app.
  set (d1 := d + String.length (String x chunk)).
  assert (Hd1 : d < d1) by (unfold d1; simpl; lia).
  destruct (IH d1) as (Hall & Hsorted & Hlast).
  split; [|split].
  - constructor; [simpl; unfold d1 in *; simpl; repeat split; lia|].
    eapply Forall_impl; [exact Hall|]. intros r (H1 & H2 & H3). unfold d1 in *.
    simpl in *. repeat split; [lia | lia | done].
  - constructor; [exact Hsorted|].
    eapply Forall_impl; [exact Hall|]. intros r (H1 & _). simpl. lia.
  - intros _. destruct (reports total rest d1) as [|r l] eqn:E.
    + simpl. destruct rest as [|[[|y ch]|e'] rest']; simpl in *; try lia; done.
    + change (List.last ((d1, total) :: r :: l) (0, None))
        with (List.last (r :: l) (0, None)).
      rewrite Hlast by done. unfold d1. lia.
Qed.

(** X5: during a successful download with a progress callback the byte
    counts reported grow strictly from one call to the next, never exceed
    the size of the file written, carry the parsed [Content-Length] as
    total, and the last one is the size of the file. *)
Theorem progress_reports_monotone (env : download_env) (dest_path : string)
    (f : callback) (st st' : dl_state) :
  download_url_to_path env dest_path (Some f) st = (Returned true, st') ->
  progress_log st = [] ->
  exists resp data,
    urlopen env = Returned resp /\
    files st' !! dest_path = Some data /\
    StronglySorted (fun a b => a.1 < b.1) (progress_log st') /\
    Forall (fun r => 0 < r.1 /\ r.1 <= String.length data /\
                     Returned r.2 = parse_total (content_length resp)) (progress_log st') /\
    (progress_log st' <> [] ->
     (List.last (progress_log st') (0, None)).1 = String.length data).
Proof.
  intros E Hlog.
  apply download_true_inv in E as (resp & total & Hu & Hp & _ & Hf & Hl).
  rewrite Hlog in Hl. cbn [logged List.app] in Hl.
  destruct (reports_spec total (stream resp) 0) as (Hall & Hsorted & Hlast).
  exists resp, (received (stream resp)). rewrite Hl, Hp.
  split; [done|]. split; [done|]. split; [done|]. split; [|done].
  eapply Forall_impl; [exact Hall|]. intros r (H1 & H2 & H3). simpl in *.
  split; [lia|]. split; [lia|]. by rewrite H3.
Qed.

Lemma progress_reports_monotone_witness :
  let env := {| urlopen := Returned {| content_length := Some "5";
                                       stream := [Chunk "abc"; Chunk "de"] |};
                makedirs_error := None; open_error := None;
                write_error := fun _ => None; print_error := None |} in
  let st := {| files := ∅; progress_log := [] |} in
  let f : callback := fun _ _ => Returned tt in
  let st' := (download_url_to_path env "/opt/mm/update_new.exe" (Some f) st).2 in
  exists resp data,
    urlopen env = Returned resp /\
    files st' !! "/opt/mm/update_new.exe" = Some data /\
    StronglySorted (fun a b => a.1 < b.1) (progress_log st') /\
    Forall (fun r => 0 < r.1 /\ r.1 <= String.length data /\
                     Returned r.2 = parse_total (content_length resp)) (progress_log st') /\
    (progress_log st' <> [] ->
     (List.last (progress_log st') (0, None)).1 = String.length data).
Proof.
  intros env st f st'.
  apply (progress_reports_monotone env "/opt/mm/update_new.exe" f st st').
  - vm_compute. reflexivity.
  - reflexivity.
Defined.

End DownloadMore.

(** ** The list of mods *)

Section ModList.
Import ModManager.




(** The scan skips what is left of a matched occurrence. *)
Lemma replace_go_skip (old new x s : string) (count : option nat) :
  PyStr.replace_go old new (String.length x) count (x +:+ s)
  = PyStr.replace_go old new 0 count s.
Proof.
  induction x as [|c x IH]; [by destruct s|]. rewrite app_cons. exact IH.
Qed.

(** Replacing every occurrence in a string that starts with one. *)
Lemma replace_all_prefix (old new s : string) :
  old <> EmptyString ->
  PyStr.replace old new None (old +:+ s) = new +:+ PyStr.replace old new None s.
Proof.
  intros Hne. destruct old as [|a old]; [done|].
  unfold PyStr.replace. change (String a old +:+ s) with (String a (old +:+ s)).
  cbn [PyStr.replace_go PyStr.count_left andb].
  assert (H : PyStr.startswith (String a old) (String a (old +:+ s)) = true)
    by apply (startswith_app (String a old) s).
  rewrite H. cbn [PyStr.dec_count String.length Nat.pred].
  by rewrite replace_go_skip.
Qed.


(** X7: what [load_mods] shows. The displayed name of a folder is the
    same before and after a toggle, and the entry of a folder that has
    just been disabled is its former entry behind the marker
    "[DISABLED] ". *)
Theorem display_under_toggle (N : string) :
  display_name (toggle_name N) = display_name N /\
  (enabled N = true -> item_text (toggle_name N) = "[DISABLED] " +:+ item_text N).
Proof.
  assert (Hpre : forall M, display_name ("DISABLED_" +:+ M) = display_name M).
  { intros M. unfold display_name.
    by rewrite (replace_all_prefix "DISABLED_" EmptyString M), app_nil. }
  destruct (PyStr.startswith "DISABLED_" N) eqn:E.
  - destruct (toggle_name_disabled N E) as [Ht Hback]. split.
    + rewrite <- Hback at 2. by rewrite Hpre.
    + unfold enabled. by rewrite E.
  - rewrite (toggle_name_enabled N E). split; [apply Hpre|].
    intros _. unfold item_text. by rewrite startswith_app, E, Hpre.
Qed.

Lemma display_under_toggle_witness :
  item_text (toggle_name "ModA") = "[DISABLED] " +:+ item_text "ModA".
Proof.
  apply (proj2 (display_under_toggle "ModA")). reflexivity.
Defined.


End ModList.

(** ** Theme and grid *)

Section ThemeAndGrid.
Import ModManager.

Lemma toggle_theme_step (sv : save_event) (st : app) :
  exists f,
    toggle_theme sv st =
      (Returned tt,
       {| settings :=
            <["theme" := JStr (if is_light (default (JStr "dark") (settings st !! "theme"))
                               then "dark" else "light")]> (settings st);
          settings_file := f; update_status := update_status st |}) /\
    (sv = SaveOpenFails -> f = settings_file st).
Proof.
  unfold toggle_theme, save_settings. munfold.
  destruct sv; eexists; (split; [reflexivity|]); done.
Qed.

(** X8: [toggle_theme] never raises and changes no key but [theme];
    after it the theme is "light" or "dark"; toggling twice gives back the
    settings dictionary exactly when the theme was "light" or "dark", and
    from any other or missing value two toggles end on "dark". *)
Theorem toggle_theme_round_trip (sv1 sv2 : save_event) (st : app) :
  exists st1 st2,
    toggle_theme sv1 st = (Returned tt, st1) /\
    toggle_theme sv2 st1 = (Returned tt, st2) /\
    (forall k, k <> "theme" -> settings st2 !! k = settings st !! k) /\
    (settings st1 !! "theme" = Some (JStr "light") \/
     settings st1 !! "theme" = Some (JStr "dark")) /\
    (settings st !! "theme" = Some (JStr "light") \/
     settings st !! "theme" = Some (JStr "dark") -> settings st2 = settings st) /\
    (settings st !! "theme" <> Some (JStr "light") ->
     settings st2 !! "theme" = Some (JStr "dark")).
Proof.
  set (th1 := if is_light (default (JStr "dark") (settings st !! "theme"))
              then "dark" else "light").
  set (th2 := if is_light (JStr th1) then "dark" else "light").
  destruct (toggle_theme_step sv1 st) as (f1 & E1 & _). fold th1 in E1.
  set (st1 := {| settings := <["theme" := JStr th1]> (settings st);
                 settings_file := f1; update_status := update_status st |}) in *.
  destruct (toggle_theme_step sv2 st1) as (f2 & E2 & _).
  assert (H1 : settings st1 !! "theme" = Some (JStr th1)) by apply lookup_insert_eq.
  rewrite H1 in E2. cbn [default from_option id] in E2. fold th2 in E2.
  cbn [settings st1 update_status] in E2. rewrite insert_insert_eq in E2.
  eexists st1, _. split; [exact E1|]. split; [exact E2|]. cbn [settings].
  split; [|split; [|split]].
  - intros k Hk. by rewrite lookup_insert_ne.
  - rewrite H1. unfold th1. destruct (is_light _); auto.
  - intros [H|H]; unfold th2, th1; rewrite H; cbn; by apply insert_id.
  - intros H. rewrite lookup_insert_eq.
    assert (Hl : is_light (default (JStr "dark") (settings st !! "theme")) = false).
    { destruct (settings st !! "theme") as [[| | |s| |]|] eqn:E; try done.
      cbn. apply bool_decide_eq_false_2. by intros ->. }
    unfold th2, th1. by rewrite Hl.
Qed.

Lemma toggle_theme_round_trip_witness :
  let st := {| settings := {["theme" := JStr "dark"; "version" := JStr "1.0.9"]};
               settings_file := FileTruncated; update_status := None |} in
  exists st1 st2,
    toggle_theme SaveOk st = (Returned tt, st1) /\
    toggle_theme SaveOk st1 = (Returned tt, st2) /\
    (forall k, k <> "theme" -> settings st2 !! k = settings st !! k) /\
    (settings st1 !! "theme" = Some (JStr "light") \/
     settings st1 !! "theme" = Some (JStr "dark")) /\
    (settings st !! "theme" = Some (JStr "light") \/
     settings st !! "theme" = Some (JStr "dark") -> settings st2 = settings st) /\
    (settings st !! "theme" <> Some (JStr "light") ->
     settings st2 !! "theme" = Some (JStr "dark")).
Proof.
  intros st. apply (toggle_theme_round_trip SaveOk SaveOk st).
Defined.

Lemma populate_grid_lookup {A} (items : list A) (row col i : nat) (item : A) :
  col < 3 -> items !! i = Some item ->
  populate_grid items row col !! i
  = Some (item, row + (col + i) / 3, (col + i) `mod` 3).
Proof.
  revert row col i. induction items as [|x items IH]; intros row col i Hc Hi; [done|].
  destruct i as [|i]; cbn [populate_grid].
  - simpl in Hi. injection Hi as ->.
    rewrite Nat.add_0_r, Nat.div_small, Nat.mod_small, Nat.add_0_r by lia.
    reflexivity.
  - change ((x :: items) !! S i) with (items !! i) in Hi.
    destruct (Nat.leb_spec 3 (col + 1)) as [H|H].
    + change (((x, row, col) :: populate_grid items (row + 1) 0) !! S i)
        with (populate_grid items (row + 1) 0 !! i).
      rewrite (IH (row + 1) 0 i ltac:(lia) Hi). assert (col = 2) as -> by lia.
      replace (2 + S i) with (0 + i + 1 * 3) by lia.
      rewrite Nat.div_add, Nat.Div0.mod_add by lia.
      do 3 f_equal. lia.
    + change (((x, row, col) :: populate_grid items row (col + 1)) !! S i)
        with (populate_grid items row (col + 1) !! i).
      rewrite (IH row (col + 1) i ltac:(lia) Hi).
      by replace (col + 1 + i) with (col + S i) by lia.
Qed.

(** X9: [load_items] lays the items out three to a row, in order: the
    widget of the item at index [i] is placed at row [i / 3], column
    [i mod 3] (so no two items share a cell and every column is below
    three). *)
Theorem grid_three_per_row {A} (items : list A) (i : nat) (item : A) :
  items !! i = Some item ->
  populate_grid items 0 0 !! i = Some (item, i / 3, i `mod` 3) /\
  length (populate_grid items 0 0) = length items.
Proof.
  intros Hi. split.
  - by rewrite (populate_grid_lookup items 0 0 i item ltac:(lia) Hi).
  - clear. generalize 0 at 1. generalize 0 at 1.
    induction items as [|x items IH]; intros c r; [done|]. cbn [populate_grid length].
    destruct (3 <=? c + 1); by rewrite IH.
Qed.

Lemma grid_three_per_row_witness :
  populate_grid ["a"; "b"; "c"; "d"; "e"] 0 0 !! 4 = Some ("e", 4 / 3, 4 `mod` 3) /\
  length (populate_grid ["a"; "b"; "c"; "d"; "e"] 0 0) = length ["a"; "b"; "c"; "d"; "e"].
Proof.
  apply (grid_three_per_row ["a"; "b"; "c"; "d"; "e"] 4 "e"). reflexivity.
Defined.

End ThemeAndGrid.

(** ** The installer of update.py, beyond its download target *)

Section InstallerMore.

Lemma silent_ret {A} (a : A) : Update.silent (ret a : M Fs.world A).
Proof. by intros w. Qed.

Lemma silent_raise {A} (e : exn) : Update.silent (raise e : M Fs.world A).
Proof. by intros w. Qed.

Lemma silent_lift {A} (o : outcome A) : Update.silent (lift o : M Fs.world A).
Proof. by intros w. Qed.

Lemma silent_bind {A B} (m : M Fs.world A) (k : A -> M Fs.world B) :
  Update.silent m -> (forall a, Update.silent (k a)) -> Update.silent (m ≫= k).
Proof.
  intros Hm Hk w. unfold mbind, M_bind, bind. specialize (Hm w).
  destruct (m w) as [[a|e] w1]; simpl in *; [|done].
  by rewrite (Hk a w1).
Qed.

Lemma silent_when (b : bool) (m : M Fs.world unit) :
  Update.silent m -> Update.silent (when_ b m).
Proof. intros H. destruct b; [exact H | apply silent_ret]. Qed.

Lemma silent_try_except {A} (m : M Fs.world A) (h : exn -> M Fs.world A) :
  Update.silent m -> (forall e, Update.silent (h e)) -> Update.silent (try_except m h).
Proof.
  intros Hm Hh w. unfold try_except. specialize (Hm w).
  destruct (m w) as [[a|e] w1]; simpl in *; [done|].
  destruct (is_exception e); [|done]. by rewrite (Hh e w1).
Qed.

(** An operation that leaves the trace alone launches nothing. *)
Lemma silent_same_trace {A} (m : M Fs.world A) :
  (forall w, Fs.trace (m w).2 = Fs.trace w) -> Update.silent m.
Proof. intros H w. by rewrite H. Qed.

Lemma silent_exists (p : string) : Update.silent (Fs.exists_ p).
Proof. by apply silent_same_trace. Qed.

Lemma silent_remove (p : string) : Update.silent (Fs.remove p).
Proof.
  apply silent_same_trace. intros w. unfold Fs.remove.
  destruct (Fs.files w !! p); [|done]. by destruct (bool_decide _).
Qed.

Lemma silent_rename (nt : bool) (src dst : string) : Update.silent (Fs.rename nt src dst).
Proof.
  apply silent_same_trace. intros w. unfold Fs.rename.
  destruct (Fs.files w !! src); [|done]. by repeat case_match.
Qed.

Lemma silent_write_file (p data : string) : Update.silent (Fs.write_file p data).
Proof.
  apply silent_same_trace. intros w. rewrite write_file_spec. by case_match.
Qed.

Lemma silent_append (p chunk : string) : Update.silent (Fs.append p chunk).
Proof. by apply silent_same_trace. Qed.

Lemma silent_emit_other (e : Fs.event) :
  (forall p, e <> Fs.EvLaunch p) -> Update.silent (Fs.emit e).
Proof.
  intros He w. unfold Fs.emit, modify, Update.launches. simpl.
  rewrite omap_app. simpl. destruct e; try by rewrite app_nil_r.
  by destruct (He path).
Qed.

Lemma silent_iter_content (dest : string) (reads : list Fs.read_result) :
  Update.silent (Update.iter_content dest reads).
Proof.
  induction reads as [|[c|e] rest IH]; cbn [Update.iter_content].
  - apply silent_ret.
  - apply silent_bind; [|done]. apply silent_when, silent_append.
  - apply silent_raise.
Qed.

Lemma silent_download_file (net : Fs.network) (url dest : string) :
  Update.silent (Update.download_file net url dest).
Proof.
  unfold Update.download_file.
  apply silent_bind; [by apply silent_emit_other|]. intros _.
  apply silent_bind; [apply silent_lift|]. intros r.
  apply silent_bind.
  { unfold Fs.raise_for_status. case_match; [apply silent_raise | apply silent_ret]. }
  intros _. apply silent_bind; [apply silent_lift|]. intros _.
  apply silent_bind; [apply silent_write_file|]. intros _.
  apply silent_iter_content.
Qed.

Lemma silent_extract_to (m : Zip.member) (target : string) :
  Update.silent (Zip.extract_to m target).
Proof.
  apply silent_same_trace. intros w.
  by destruct (extract_to_frame m target w) as (_ & Ht & _).
Qed.

Lemma silent_merge_members (dest : string) (ms : list Zip.member) :
  Update.silent (Update.merge_members dest ms).
Proof.
  induction ms as [|m ms IH]; cbn [Update.merge_members]; [apply silent_ret|].
  apply silent_bind; [|done]. unfold Update.merge_member.
  repeat case_match; try apply silent_ret; try apply silent_raise.
  apply silent_extract_to.
Qed.

Lemma silent_unzip_and_merge (dec : Zip.decoder) (zip_path dest : string) :
  Update.silent (Update.unzip_and_merge dec zip_path dest).
Proof.
  unfold Update.unzip_and_merge, Update.open_zip.
  apply silent_bind; [|intros ms; apply silent_merge_members].
  apply silent_bind; [by apply silent_same_trace|]. intros w.
  case_match; [apply silent_lift | apply silent_raise].
Qed.

Lemma silent_download_modmanager (net : Fs.network) (nt : bool) (d : string) :
  Update.silent (Update.download_modmanager net nt d).
Proof.
  unfold Update.download_modmanager.
  apply silent_bind; [apply silent_exists|]. intros e.
  apply silent_bind; [apply silent_when, silent_rename|]. intros _.
  apply silent_bind; [apply silent_download_file|]. intros _.
  apply silent_bind; [apply silent_exists|]. intros e'.
  apply silent_when, silent_remove.
Qed.

Lemma launches_at_end_bind {A B} (exe : string) (m : M Fs.world A)
    (k : A -> M Fs.world B) :
  Update.silent m -> (forall a, Update.launches_at_end exe (k a)) ->
  Update.launches_at_end exe (m ≫= k).
Proof.
  intros Hm Hk w. unfold mbind, M_bind, bind. specialize (Hm w).
  destruct (m w) as [[a|e] w1]; simpl in *; [|done].
  specialize (Hk a w1). by rewrite Hm in Hk.
Qed.

Lemma launches_at_end_emit (exe : string) :
  Update.launches_at_end exe (Fs.emit (Fs.EvLaunch exe)).
Proof.
  intros w. unfold Fs.emit, modify, Update.launches. simpl. by rewrite omap_app.
Qed.

(** X10: [run] launches Mod-Manager only as the last act of a run in
    which every step succeeded: when it returns with a non-empty install
    path the installed executable path has been launched exactly once,
    after everything else; when any step raises, and when the path field
    is empty, nothing is launched. *)
Theorem run_launches_only_on_success (net : Fs.network) (dec : Zip.decoder)
    (nt : bool) (shortcut : outcome unit) (d : string) (w : Fs.world) :
  let r := Update.run net dec nt shortcut d w in
  (d = EmptyString -> r = (Returned tt, w)) /\
  (d <> EmptyString ->
   match r.1 with
   | Returned _ =>
       Update.launches (Fs.trace r.2)
       = Update.launches (Fs.trace w) ++ [Update.modmanager_path d]
   | Raised _ => Update.launches (Fs.trace r.2) = Update.launches (Fs.trace w)
   end).
Proof.
  cbv zeta. split.
  - intros ->. reflexivity.
  - intros Hd. unfold Update.run. rewrite bool_decide_eq_false_2 by done.
    revert w. change (Update.launches_at_end (Update.modmanager_path d)
      (Fs.emit (Fs.EvSaveInstallPath d);;
       Fs.emit (Fs.EvKill Update.MODMANAGER_EXE_NAME);;
       e ← Fs.exists_ (Update.update_new_path d);
       when_ (negb e)
         (Update.download_file net (Update.asset_url Update.UPDATE_EXE_NAME)
            (Update.update_new_path d));;
       Update.download_modmanager net nt d;;
       Update.download_file net (Update.asset_url Update.RESOURCES_ZIP_NAME)
         (Update.tmp_zip d);;
       Update.unzip_and_merge dec (Update.tmp_zip d) (Update.resources_path d);;
       Fs.remove (Update.tmp_zip d);;
       lift shortcut;;
       Fs.emit (Fs.EvLaunch (Update.modmanager_path d)))).
    apply launches_at_end_bind; [by apply silent_emit_other|]. intros _.
    apply launches_at_end_bind; [by apply silent_emit_other|]. intros _.
    apply launches_at_end_bind; [apply silent_exists|]. intros e.
    apply launches_at_end_bind; [apply silent_when, silent_download_file|]. intros _.
    apply launches_at_end_bind; [apply silent_download_modmanager|]. intros _.
    apply launches_at_end_bind; [apply silent_download_file|]. intros _.
    apply launches_at_end_bind; [apply silent_unzip_and_merge|]. intros _.
    apply launches_at_end_bind; [apply silent_remove|]. intros _.
    apply launches_at_end_bind; [apply silent_lift|]. intros _.
    apply launches_at_end_emit.
Qed.

Lemma run_launches_only_on_success_witness :
  let net : Fs.network := fun _ => Raised URLError in
  let w := {| Fs.files := ∅; Fs.locked := ∅; Fs.trace := [] |} in
  let r := Update.run net (fun _ => Raised BadZipFile) true (Returned tt) "/opt/mm" w in
  match r.1 with
  | Returned _ =>
      Update.launches (Fs.trace r.2)
      = Update.launches (Fs.trace w) ++ [Update.modmanager_path "/opt/mm"]
  | Raised _ => Update.launches (Fs.trace r.2) = Update.launches (Fs.trace w)
  end.
Proof.
  intros net w.
  apply (proj2 (run_launches_only_on_success net (fun _ => Raised BadZipFile) true
                  (Returned tt) "/opt/mm" w)).
  discriminate.
Defined.

End InstallerMore.

(** ** Downloads and archives of the installers *)

Section InstallerFiles.

Lemma iter_content_all (dest : string) (cs : list string) (w : Fs.world) (c0 : string) :
  Fs.files w !! dest = Some c0 ->
  exists w',
    Update.iter_content dest (Fs.Chunk <$> cs) w = (Returned tt, w') /\
    Fs.files w' = <[dest := c0 +:+ Fs.concat cs]> (Fs.files w) /\
    Fs.locked w' = Fs.locked w /\ Fs.trace w' = Fs.trace w.
Proof.
  revert w c0. induction cs as [|c cs IH]; intros w c0 Hc0.
  - exists w. cbn. rewrite app_empty_r. rewrite insert_id by done. done.
  - cbn [fmap list_fmap Update.iter_content]. change (list_fmap _ _ Fs.Chunk cs) with (Fs.Chunk <$> cs).
    destruct (decide (c = EmptyString)) as [->|Hc].
    + rewrite bool_decide_eq_true_2 by done. cbn [negb when_].
      destruct (IH w c0 Hc0) as (w' & Hr & Hf & Hl & Ht).
      exists w'. split; [|by rewrite Hf].
      munfold. exact Hr.
    + rewrite bool_decide_eq_false_2 by done. cbn [negb when_].
      set (w1 := (Fs.append dest c w).2).
      assert (H1 : Fs.files w1 !! dest = Some (c0 +:+ c)).
      { unfold w1, Fs.append, modify. simpl. rewrite lookup_insert_eq, Hc0. done. }
      destruct (IH w1 _ H1) as (w' & Hr & Hf & Hl & Ht).
      exists w'. split; [munfold; exact Hr|]. split; [|done].
      rewrite Hf. unfold w1, Fs.append, modify. simpl.
      rewrite insert_insert_eq. cbn [Fs.concat foldr]. by rewrite app_assoc'.
Qed.

(** X11: [download_file] of update.py on a stream that delivers all
    its chunks to an unlocked destination. With a status from 400 to 599
    it raises [HTTPError] and changes no file; otherwise, when [int]
    refuses the [Content-Length] it raises [ValueError], again before
    the destination is opened; otherwise it returns and leaves at the
    destination exactly the bytes of the chunks. *)
Theorem installer_download_outcome (net : Fs.network) (url dest : string)
    (r : Fs.response) (cs : list string) (w : Fs.world) :
  net url = Returned r ->
  Fs.stream r = (Fs.Chunk <$> cs) -> dest ∉ Fs.locked w ->
  let res := Update.download_file net url dest w in
  if Fs.status_ok r
  then
    if Fs.header_ok r
    then res.1 = Returned tt /\ Fs.files res.2 = <[dest := Fs.concat cs]> (Fs.files w)
    else res.1 = Raised ValueError /\ Fs.files res.2 = Fs.files w
  else res.1 = Raised (HTTPError (Fs.status_code r)) /\ Fs.files res.2 = Fs.files w.
Proof.
  intros Hnet Hs Hl. cbv zeta. unfold Update.download_file.
  munfold. unfold Fs.emit, modify, lift. simpl. rewrite Hnet. simpl.
  unfold Fs.raise_for_status, Fs.status_ok.
  destruct ((400 <=? Fs.status_code r) && (Fs.status_code r <? 600)); simpl; [done|].
  unfold Fs.header_ok.
  destruct (Fs.total_of r) as [n|e] eqn:Hn; simpl.
  2:{ split; [|done]. unfold Fs.total_of, Fs.py_int in Hn.
      repeat case_match; congruence. }
  rewrite write_file_spec. simpl.
  rewrite bool_decide_eq_false_2 by done. rewrite Hs.
  match goal with |- context [Update.iter_content dest _ ?w1] =>
    destruct (iter_content_all dest cs w1 EmptyString) as (w' & Hr & Hf & _)
  end.
  { simpl. by rewrite lookup_insert_eq. }
  rewrite Hr. simpl. rewrite Hf. simpl. rewrite insert_insert_eq. done.
Qed.

Lemma installer_download_outcome_witness :
  let r := {| Fs.status_code := 200; Fs.content_length := Some "1e3";
              Fs.stream := Fs.Chunk <$> ["NEW"] |} in
  let net : Fs.network := fun _ => Returned r in
  let w := {| Fs.files := {["/opt/mm/modmanager.exe" := "old"]}; Fs.locked := ∅;
              Fs.trace := [] |} in
  let res := Update.download_file net "u" "/opt/mm/modmanager.exe" w in
  if Fs.status_ok r
  then
    if Fs.header_ok r
    then res.1 = Returned tt /\
         Fs.files res.2 = <["/opt/mm/modmanager.exe" := Fs.concat ["NEW"]]> (Fs.files w)
    else res.1 = Raised ValueError /\ Fs.files res.2 = Fs.files w
  else res.1 = Raised (HTTPError (Fs.status_code r)) /\ Fs.files res.2 = Fs.files w.
Proof.
  intros r net w.
  apply (installer_download_outcome net "u" "/opt/mm/modmanager.exe" r ["NEW"] w).
  - reflexivity.
  - reflexivity.
  - vm_compute. set_solver.
Defined.

Lemma write_chunks_all (path : string) (cb : bool) (total : Z) (cs : list string)
    (w : Fs.world) (c0 : string) :
  cb && (total =? 0)%Z = false ->
  Fs.files w !! path = Some c0 ->
  exists w',
    OldUpdater12.write_chunks path cb total (Fs.Chunk <$> cs) w = (Returned tt, w') /\
    Fs.files w' = <[path := c0 +:+ Fs.concat cs]> (Fs.files w).
Proof.
  intros Hcb. revert w c0. induction cs as [|c cs IH]; intros w c0 Hc0.
  - exists w. cbn. rewrite app_empty_r. rewrite insert_id by done. done.
  - cbn [fmap list_fmap OldUpdater12.write_chunks].
    change (list_fmap _ _ Fs.Chunk cs) with (Fs.Chunk <$> cs). rewrite Hcb.
    set (w1 := (Fs.append path c w).2).
    assert (H1 : Fs.files w1 !! path = Some (c0 +:+ c)).
    { unfold w1, Fs.append, modify. simpl. rewrite lookup_insert_eq, Hc0. done. }
    destruct (IH w1 _ H1) as (w' & Hr & Hf).
    exists w'. split; [munfold; exact Hr|].
    rewrite Hf. unfold w1, Fs.append, modify. simpl.
    rewrite insert_insert_eq. cbn [Fs.concat foldr]. by rewrite app_assoc'.
Qed.

(** X12: [download_file] of the 1.2 updater checks no status: whatever
    the status code, a delivered body replaces the file at the path,
    unless [int] refuses the [Content-Length], which raises
    [ValueError] before the file is opened. With a progress callback,
    as [start_update] always passes one, a response whose length header
    is missing or zero makes it raise [ZeroDivisionError] after the
    first chunk, which is all the file then holds. *)
Theorem old_download_ignores_status (net : Fs.network) (url path : string)
    (r : Fs.response) (cs : list string) (cb : bool) (w : Fs.world) :
  net url = Returned r ->
  Fs.stream r = (Fs.Chunk <$> cs) -> path ∉ Fs.locked w ->
  let res := OldUpdater12.download_file net url path cb w in
  if Fs.header_ok r then
    if negb cb || Fs.header_nonzero r
    then res.1 = Returned tt /\ Fs.files res.2 = <[path := Fs.concat cs]> (Fs.files w)
    else match cs with
         | [] =>
             res.1 = Returned tt /\
             Fs.files res.2 = <[path := EmptyString]> (Fs.files w)
         | c :: _ =>
             res.1 = Raised ZeroDivisionError /\
             Fs.files res.2 = <[path := c]> (Fs.files w)
         end
  else res.1 = Raised ValueError /\ Fs.files res.2 = Fs.files w.
Proof.
  intros Hnet Hs Hl. cbv zeta. unfold OldUpdater12.download_file.
  munfold. unfold Fs.emit, modify, lift. simpl. rewrite Hnet. simpl.
  destruct (Fs.header_ok r) eqn:Hh.
  2:{ unfold Fs.header_ok in Hh. destruct (Fs.total_of r) as [n|e] eqn:Hn; [done|].
      simpl. split; [|done]. unfold Fs.total_of, Fs.py_int in Hn.
      repeat case_match; congruence. }
  assert (Htot : exists n,
    Fs.total_of r = Returned n /\ (n =? 0)%Z = negb (Fs.header_nonzero r)).
  { unfold Fs.header_ok, Fs.header_nonzero in *.
    destruct (Fs.total_of r) as [n|]; [|done]. exists n.
    by rewrite negb_involutive. }
  destruct Htot as (n & Hn & Hz). rewrite Hn. simpl.
  rewrite write_file_spec. simpl. rewrite bool_decide_eq_false_2 by done. rewrite Hs.
  destruct (negb cb || Fs.header_nonzero r) eqn:Hcase.
  - match goal with |- context [OldUpdater12.write_chunks path cb n _ ?w1] =>
      destruct (write_chunks_all path cb n cs w1 EmptyString) as (w' & Hr & Hf)
    end.
    { rewrite Hz. destruct cb, (Fs.header_nonzero r); done. }
    { simpl. by rewrite lookup_insert_eq. }
    rewrite Hr. simpl. rewrite Hf. simpl. by rewrite insert_insert_eq.
  - apply orb_false_iff in Hcase as [Hcb Hp].
    apply negb_false_iff in Hcb. subst cb. rewrite Hp in Hz. simpl in Hz.
    destruct cs as [|c cs]; [done|].
    cbn [fmap list_fmap OldUpdater12.write_chunks]. rewrite Hz. simpl.
    munfold. unfold Fs.append, modify. simpl.
    rewrite lookup_insert_eq. simpl. by rewrite insert_insert_eq.
Qed.

Lemma old_download_ignores_status_witness :
  let r := {| Fs.status_code := 404; Fs.content_length := None;
              Fs.stream := Fs.Chunk <$> ["Not"; " Found"] |} in
  let net : Fs.network := fun _ => Returned r in
  let w := {| Fs.files := {["/opt/mm/modmanager.exe" := "old"]}; Fs.locked := ∅;
              Fs.trace := [] |} in
  let res := OldUpdater12.download_file net "u" "/opt/mm/modmanager.exe" true w in
  if Fs.header_ok r then
    if negb true || Fs.header_nonzero r
    then res.1 = Returned tt /\
         Fs.files res.2
         = <["/opt/mm/modmanager.exe" := Fs.concat ["Not"; " Found"]]> (Fs.files w)
    else match ["Not"; " Found"] with
         | [] =>
             res.1 = Returned tt /\
             Fs.files res.2 = <["/opt/mm/modmanager.exe" := EmptyString]> (Fs.files w)
         | c :: _ =>
             res.1 = Raised ZeroDivisionError /\
             Fs.files res.2 = <["/opt/mm/modmanager.exe" := c]> (Fs.files w)
         end
  else res.1 = Raised ValueError /\ Fs.files res.2 = Fs.files w.
Proof.
  intros r net w.
  apply (old_download_ignores_status net "u" "/opt/mm/modmanager.exe" r
           ["Not"; " Found"] true w).
  - reflexivity.
  - reflexivity.
  - vm_compute. set_solver.
Defined.

End InstallerFiles.

(** ** The merge of resources.zip *)

Section MergeMore.







Lemma bind_returned_inv {S A B} (m : M S A) (k : A -> M S B) (s s' : S) (b : B) :
  (m ≫= k) s = (Returned b, s') ->
  exists a s1, m s = (Returned a, s1) /\ k a s1 = (Returned b, s').
Proof.
  munfold. destruct (m s) as [[a|e] s1]; [|done]. intros H. by exists a, s1.
Qed.

(** X15: a run of the installer that returns leaves no [resources.zip]
    in the install folder: the archive is removed after the merge, and
    neither the shortcut step nor the launch brings it back. *)
Theorem run_removes_archive (net : Fs.network) (dec : Zip.decoder) (nt : bool)
    (shortcut : outcome unit) (d : string) (w w' : Fs.world) :
  d <> EmptyString ->
  Update.run net dec nt shortcut d w = (Returned tt, w') ->
  Fs.files w' !! Update.tmp_zip d = None /\
  exists done_, Fs.trace w' = done_ ++ [Fs.EvLaunch (Update.modmanager_path d)].
Proof.
  intros Hd. unfold Update.run. rewrite bool_decide_eq_false_2 by done. intros H.
  apply bind_returned_inv in H as (_ & w1 & _ & H).
  apply bind_returned_inv in H as (_ & w2 & _ & H).
  apply bind_returned_inv in H as (e & w3 & _ & H).
  apply bind_returned_inv in H as (_ & w4 & _ & H).
  apply bind_returned_inv in H as (_ & w5 & _ & H).
  apply bind_returned_inv in H as (_ & w6 & _ & H).
  apply bind_returned_inv in H as (_ & w7 & _ & H).
  apply bind_returned_inv in H as (u8 & w8 & Hrm & H).
  apply bind_returned_inv in H as (u9 & w9 & Hsc & H).
  unfold Fs.remove in Hrm.
  destruct (Fs.files w7 !! Update.tmp_zip d); [|done].
  destruct (bool_decide _); [done|].
  injection Hrm as Hw8.
  unfold lift in Hsc. destruct shortcut; [|done]. injection Hsc as Hw9.
  unfold Fs.emit, modify in H. injection H as Hw'. subst w' w9 w8. simpl.
  split; [apply lookup_delete_eq | by eexists].
Qed.

Lemma run_removes_archive_witness :
  let exe := {| Fs.status_code := 200; Fs.content_length := None;
                Fs.stream := [Fs.Chunk "MZ"] |} in
  let net : Fs.network := fun _ => Returned exe in
  let dec : Zip.decoder := fun _ => Returned [] in
  let w := {| Fs.files := ∅; Fs.locked := ∅; Fs.trace := [] |} in
  let w' := (Update.run net dec true (Returned tt) "/i" w).2 in
  Fs.files w' !! Update.tmp_zip "/i" = None /\
  exists done_, Fs.trace w' = done_ ++ [Fs.EvLaunch (Update.modmanager_path "/i")].
Proof.
  intros exe net dec w w'.
  apply (run_removes_archive net dec true (Returned tt) "/i" w w').
  - discriminate.
  - vm_compute; reflexivity.
Defined.

End MergeMore.

(** ** The release assets of the 1.1 updater *)

Section Assets.

Lemma contains_refl (s : string) : PyStr.contains s s = true.
Proof. destruct s; cbn [PyStr.contains]; by rewrite startswith_refl. Qed.

Lemma find_exact_spec (assets : list ModManager.json) (exp : string)
    (res : option ModManager.json) :
  OldUpdater11.find_exact assets exp = Returned res ->
  match res with
  | Some a => a ∈ assets /\ OldUpdater11.asset_name a = Returned exp
  | None => forall b, b ∈ assets ->
      exists n, OldUpdater11.asset_name b = Returned n /\ n <> exp
  end.
Proof.
  induction assets as [|a rest IH]; cbn [OldUpdater11.find_exact].
  - intros [= <-]. intros b Hb. by apply elem_of_nil in Hb.
  - destruct (OldUpdater11.asset_name a) as [n|e] eqn:Hn; [|done].
    case_bool_decide as Hx.
    + intros [= <-]. split; [left | by rewrite Hn, Hx].
    + intros H. specialize (IH H). destruct res as [r|].
      * destruct IH as [Hin Hr]. split; [by right | done].
      * intros b Hb. apply elem_of_cons in Hb as [->|Hb]; [by exists n | by apply IH].
Qed.

Lemma find_containing_spec (assets : list ModManager.json) (exp : string)
    (res : option ModManager.json) :
  OldUpdater11.find_containing assets exp = Returned res ->
  match res with
  | Some a => a ∈ assets /\
      exists n, OldUpdater11.asset_name a = Returned n /\ PyStr.contains exp n = true
  | None => forall b, b ∈ assets ->
      exists n, OldUpdater11.asset_name b = Returned n /\ PyStr.contains exp n = false
  end.
Proof.
  induction assets as [|a rest IH]; cbn [OldUpdater11.find_containing].
  - intros [= <-]. intros b Hb. by apply elem_of_nil in Hb.
  - destruct (OldUpdater11.asset_name a) as [n|e] eqn:Hn; [|done].
    destruct (PyStr.contains exp n) eqn:Hc.
    + intros [= <-]. split; [left | by exists n].
    + intros H. specialize (IH H). destruct res as [r|].
      * destruct IH as [Hin Hr]. split; [by right | done].
      * intros b Hb. apply elem_of_cons in Hb as [->|Hb]; [by exists n | by apply IH].
Qed.

(** X16: when [find_asset_by_name] returns an asset, it is one of the
    given assets and its lower-cased name contains the lower-cased
    expected name; it is one named exactly so whenever the list has
    such an asset, even behind an asset whose name only contains the
    expected one. It returns [None] only when no asset's name contains
    the expected name. *)
Theorem find_asset_by_name_spec (assets : list ModManager.json) (expected : string)
    (res : option ModManager.json) :
  OldUpdater11.find_asset_by_name assets expected = Returned res ->
  match res with
  | Some a =>
      a ∈ assets /\
      exists n, OldUpdater11.asset_name a = Returned n /\
        PyStr.contains (PyStr.lower expected) n = true /\
        (forall b, b ∈ assets ->
           OldUpdater11.asset_name b = Returned (PyStr.lower expected) ->
           n = PyStr.lower expected)
  | None =>
      forall b, b ∈ assets ->
        exists n, OldUpdater11.asset_name b = Returned n /\
          PyStr.contains (PyStr.lower expected) n = false
  end.
Proof.
  unfold OldUpdater11.find_asset_by_name.
  destruct (OldUpdater11.find_exact assets (PyStr.lower expected)) as [[a|]|e] eqn:Hex;
    [| |done].
  - intros [= <-]. apply find_exact_spec in Hex as [Hin Hn].
    split; [done|]. exists (PyStr.lower expected).
    split; [done|]. split; [apply contains_refl | done].
  - intros Hc. apply find_exact_spec in Hex. apply find_containing_spec in Hc.
    destruct res as [a|]; [|done].
    destruct Hc as (Hin & n & Hn & Hcn). split; [done|].
    exists n. split; [done|]. split; [done|].
    intros b Hb Hbn. destruct (Hex b Hb) as (m & Hm & Hne). congruence.
Qed.

Lemma find_asset_by_name_spec_witness :
  let sig := ModManager.JObj [("name", ModManager.JStr "modmanager.exe.sig")] in
  let exe := ModManager.JObj [("name", ModManager.JStr "ModManager.exe")] in
  match Some exe with
  | Some a =>
      a ∈ [sig; exe] /\
      exists n, OldUpdater11.asset_name a = Returned n /\
        PyStr.contains (PyStr.lower "modmanager.exe") n = true /\
        (forall b, b ∈ [sig; exe] ->
           OldUpdater11.asset_name b = Returned (PyStr.lower "modmanager.exe") ->
           n = PyStr.lower "modmanager.exe")
  | None =>
      forall b, b ∈ [sig; exe] ->
        exists n, OldUpdater11.asset_name b = Returned n /\
          PyStr.contains (PyStr.lower "modmanager.exe") n = false
  end.
Proof.
  intros sig exe.
  apply (find_asset_by_name_spec [sig; exe] "modmanager.exe" (Some exe)).
  vm_compute; reflexivity.
Defined.

End Assets.
